(** * Oscillometric blood pressure measurement (obp): a verification development

    The development embeds the two C++ translation units of the repository,
    [ComediHandler.cpp] (the sample source in front of the comedi data
    acquisition driver) and [Window.cpp] (the Qt presentation layer), as Rocq
    functions over explicit state, and the measurement engine they talk to
    (the estimation algorithm and the measurement state machine), whose
    implementation files are not among the sources, as definitions modelled
    from the specification.

    Conventions.
    - C integers are [Z] with the conversions written out ([to_int],
      [to_lsampl]); [double] is an abstract type, since no property below
      depends on the rounding of floating point operations.
    - A C++ member function is a computation in the monad [Proc S]: it
      threads the state [S] and either returns or leaves the process through
      [exit].
    - Functions of the comedi library, of the operating system and of Qt are
      not part of the repository; they are Variables of the Sections, so each
      theorem holds for every behaviour of that environment. *)

From Stdlib Require Import ZArith QArith List String Ascii Bool Lia DecimalString.
Import ListNotations.

(* ================================================================== *)
(** * Processes: state passing with [exit]                             *)
(* ================================================================== *)

Module Proc.

(** The ways a member function can end: it returns a value, it calls
    [exit(status)], or an [assert] fails and the process is aborted; after
    the last two no caller ever runs again. Each carries the state reached,
    so that what was logged, posted or read stays observable. *)
Inductive Outcome (S A : Type) : Type :=
| Returns (a : A) (s : S)
| Exits (status : Z) (s : S)
| Aborts (s : S).

Arguments Returns {S A} a s.
Arguments Exits {S A} status s.
Arguments Aborts {S A} s.

Definition Proc (S A : Type) : Type := S -> Outcome S A.

Definition ret {S A} (a : A) : Proc S A := fun s => Returns a s.

Definition bind {S A B} (c : Proc S A) (k : A -> Proc S B) : Proc S B :=
  fun s =>
    match c s with
    | Returns a s' => k a s'
    | Exits status s' => Exits status s'
    | Aborts s' => Aborts s'
    end.

(** [exit(status)] of <cstdlib>. *)
Definition exit {S A} (status : Z) : Proc S A := fun s => Exits status s.

(** [assert(b)] of <cassert>; with [NDEBUG] defined it is no statement. *)
Definition assert {S} (NDEBUG : bool) (b : bool) : Proc S unit :=
  fun s => if NDEBUG || b then Returns tt s else Aborts s.

Definition get {S} : Proc S S := fun s => Returns s s.
Definition modify {S} (f : S -> S) : Proc S unit := fun s => Returns tt (f s).

Definition final_state {S A} (o : Outcome S A) : S :=
  match o with
  | Returns _ s => s
  | Exits _ s => s
  | Aborts s => s
  end.

Definition returned {S A} (o : Outcome S A) : option A :=
  match o with
  | Returns a _ => Some a
  | Exits _ _ => None
  | Aborts _ => None
  end.

Definition exit_status {S A} (o : Outcome S A) : option Z :=
  match o with
  | Returns _ _ => None
  | Exits status _ => Some status
  | Aborts _ => None
  end.

(** Partial correctness: [Q] holds of the result whenever [c] returns. *)
Definition post {S A} (c : Proc S A) (Q : A -> S -> Prop) (s : S) : Prop :=
  match c s with
  | Returns a s' => Q a s'
  | Exits _ _ => True
  | Aborts _ => True
  end.

Lemma post_get {S B} (k : S -> Proc S B) (Q : B -> S -> Prop) (s : S) :
  post (k s) Q s -> post (bind get k) Q s.
Proof. intros H. exact H. Qed.

Lemma post_bind_any {S A B} (c : Proc S A) (k : A -> Proc S B) (Q : B -> S -> Prop) (s : S) :
  (forall a s', post (k a) Q s') -> post (bind c k) Q s.
Proof.
  intros H. unfold post, bind. destruct (c s) as [a s'|status s'|s']; [|exact I|exact I].
  apply H.
Qed.

End Proc.

Import Proc.

Declare Scope proc_scope.
Delimit Scope proc_scope with proc.
Notation "x <- c ;; k" := (bind c (fun x => k))
  (at level 61, c at next level, right associativity) : proc_scope.
Notation "c ;;; k" := (bind c (fun _ => k))
  (at level 61, right associativity) : proc_scope.

(* ================================================================== *)
(** * ComediHandler.cpp                                                *)
(* ================================================================== *)

Module ComediHandler.

Local Open Scope Z_scope.

(** ** Constants of <comedi.h> *)

Definition TRIG_NONE : Z := 0x1.
Definition TRIG_TIMER : Z := 0x10.
Definition SDF_LSAMPL : Z := 0x10000000.
Definition AREF_GROUND : Z := 0x00.
Definition COMEDI_OOR_NUMBER : Z := 0.

(** [CR_PACK(chan, rng, aref)] *)
Definition CR_PACK (chan rng aref : Z) : Z :=
  Z.lor (Z.lor (Z.shiftl (Z.land aref 0x3) 24) (Z.shiftl (Z.land rng 0xff) 16)) chan.

(** [sizeof(lsampl_t)] (an [unsigned int]) and [sizeof(sampl_t)] (an
    [unsigned short]). *)
Definition sizeof_lsampl_t : Z := 4.
Definition sizeof_sampl_t : Z := 2.

(** ** Integer conversions *)

(** Conversion to [int]: 32 bits, two's complement. *)
Definition to_int (z : Z) : Z := (z + 2 ^ 31) mod 2 ^ 32 - 2 ^ 31.

(** Conversion to [lsampl_t]: 32 bits, unsigned. *)
Definition to_lsampl (z : Z) : Z := z mod 2 ^ 32.

(** ** Reading an integer out of a byte buffer *)

(** The value of a run of bytes, least significant byte first. *)
Fixpoint le_value (bs : list Byte.byte) : Z :=
  match bs with
  | [] => 0
  | b :: bs' => Z.of_N (Byte.to_N b) + 256 * le_value bs'
  end.

(** [((T * ) buffer)[i]] for an unsigned [T] of [width] bytes: the [width]
    bytes at offset [width * i], in the byte order of the machine. Bytes
    the buffer does not have read as zero. *)
Definition load (big_endian : bool) (width : Z) (buffer : list Byte.byte) (i : Z) : Z :=
  let w := Z.to_nat width in
  let cell := firstn w (skipn (Z.to_nat (width * i)) buffer ++ repeat Byte.x00 w) in
  le_value (if big_endian then rev cell else cell).

(** ** Logging *)

Inductive Severity : Type := Verbose | Info | Warning | Error | Perror.

Section Handler.

(** The type [double]. *)
Variable double : Type.

(** What lies behind the [comedi_t] handle: the state of the driver and of
    the hardware. *)
Variable Dev : Type.

(** One piece of a log record: [PLOG_x << a << b << ...]. *)
Inductive LogItem : Type :=
| LStr (s : string)
| LInt (z : Z)
| LDbl (d : double).

Definition LogRecord : Type := (Severity * list LogItem)%type.

(** [comedi_range] *)
Record comedi_range : Type := {
  min : double;
  max : double;
  unit_ : Z
}.

(** [comedi_cmd], the members this file reads or writes. *)
Record comedi_cmd : Type := {
  scan_begin_src : Z;
  scan_begin_arg : Z;
  convert_src : Z;
  convert_arg : Z;
  stop_src : Z;
  stop_arg : Z;
  cmd_chanlist : list Z;
  cmd_chanlist_len : Z
}.

(** *** The environment: comedilib, the kernel, common.h *)

(** Constants of [common.h]. [SAMPLING_PERIOD_NS] stands for the expression
    [(int) (1e9 / (SAMPLING_RATE))]. *)
Variable COMEDI_DEV_PATH : string.
Variable COMEDI_SUB_DEVICE : Z.
Variable COMEDI_RANGE_ID : Z.
Variable COMEDI_NUM_CHANNEL : Z.
Variable SAMPLING_PERIOD_NS : Z.

(** The machine's byte order. *)
Variable big_endian : bool.

(** Arithmetic on [double]: the literal [1E9], division, and the conversion
    of an integer. *)
Variable d_1E9 : double.
Variable ddiv : double -> double -> double.
Variable d_of_Z : Z -> double.

(** comedilib. A call may change the device; [comedi_open] answers whether
    it returned a handle. *)
Variable comedi_open : string -> Dev -> bool * Dev.
Variable comedi_set_global_oor_behavior : Z -> Dev -> Dev.
Variable comedi_get_maxdata : Z -> Z -> Dev -> Z * Dev.
Variable comedi_get_range : Z -> Z -> Z -> Dev -> comedi_range * Dev.
Variable comedi_get_n_channels : Z -> Dev -> Z * Dev.
Variable comedi_get_cmd_generic_timed : Z -> Z -> Z -> Dev -> (Z * comedi_cmd) * Dev.
Variable comedi_command_test : comedi_cmd -> Dev -> (Z * comedi_cmd) * Dev.
Variable comedi_command : comedi_cmd -> Dev -> Z * Dev.
Variable comedi_get_subdevice_flags : Z -> Dev -> Z * Dev.
Variable comedi_get_buffer_contents : Z -> Dev -> Z * Dev.
Variable comedi_fileno : Dev -> Z.
Variable comedi_to_phys : Z -> comedi_range -> Z -> double.

(** [read(fd, buffer, count)]: the value returned, and the [count] bytes of
    [buffer] as they are after the call. *)
Variable sys_read : Z -> Z -> Dev -> (Z * list Byte.byte) * Dev.

(** *** The object and the process state *)

(** The data members of [ComediHandler] (the handle [dev] is [device] of
    the process state). *)
Record Handler : Type := {
  adChannel : Z;
  maxdata : Z;
  crange : comedi_range;
  numChannels : Z;
  chanlist : list Z;
  comediCommand : comedi_cmd;
  sampling_rate : double;
  sigmaBoard : bool;
  readSize : Z
}.

(** A system call the process made. *)
Inductive Syscall : Type :=
| SysRead (fd count : Z).

Record State : Type := {
  this : Handler;
  device : Dev;
  plog : list LogRecord;
  syscalls : list Syscall
}.

Definition set_this (h : Handler) (st : State) : State :=
  {| this := h; device := device st; plog := plog st; syscalls := syscalls st |}.

Definition set_device (d : Dev) (st : State) : State :=
  {| this := this st; device := d; plog := plog st; syscalls := syscalls st |}.

Local Open Scope proc_scope.

(** A call into comedilib. *)
Definition lib {A} (f : Dev -> A * Dev) : Proc State A :=
  fun st => let (a, d) := f (device st) in Returns a (set_device d st).

Definition lib_ (f : Dev -> Dev) : Proc State unit :=
  modify (fun st => set_device (f (device st)) st).

(** [PLOG_x << ...] and [comedi_perror]. *)
Definition PLOG (sev : Severity) (items : list LogItem) : Proc State unit :=
  modify (fun st =>
    {| this := this st; device := device st;
       plog := plog st ++ [(sev, items)]; syscalls := syscalls st |}).

Definition comedi_perror (s : string) : Proc State unit := PLOG Perror [LStr s].

(** [read(fd, buffer, count)], recorded in the trace of system calls. *)
Definition read (fd count : Z) : Proc State (Z * list Byte.byte) :=
  fun st =>
    let (r, d) := sys_read fd count (device st) in
    Returns r {| this := this st; device := d; plog := plog st;
                 syscalls := syscalls st ++ [SysRead fd count] |}.

(** A test [if (c)] followed by [exit]. *)
Definition exit_when (c : bool) (before : Proc State unit) (status : Z) : Proc State unit :=
  if c then before ;;; exit status else ret tt.

(** *** ComediHandler::ComediHandler

    [this] of the state the constructor starts in is the storage the object
    is constructed in: a member the constructor does not assign keeps the
    value found there. *)
Definition ComediHandler_ctor : Proc State unit :=
  st0 <- get ;;
  let mem := this st0 in
  let adChannel' := 0 in
  PLOG Verbose [LStr "ComediHandler started"] ;;;
  let filename := COMEDI_DEV_PATH in
  opened <- lib (comedi_open filename) ;;
  exit_when (negb opened) (comedi_perror filename) 1 ;;;
  lib_ (comedi_set_global_oor_behavior COMEDI_OOR_NUMBER) ;;;
  maxdata' <- lib (comedi_get_maxdata COMEDI_SUB_DEVICE COMEDI_SUB_DEVICE) ;;
  crange' <- lib (comedi_get_range COMEDI_SUB_DEVICE COMEDI_SUB_DEVICE COMEDI_RANGE_ID) ;;
  numChannels0 <- lib (comedi_get_n_channels COMEDI_SUB_DEVICE) ;;
  PLOG Verbose [LStr "maxdata: "; LInt maxdata'] ;;;
  PLOG Verbose [LStr "crange min: "; LDbl (min crange'); LStr " max: "; LDbl (max crange')] ;;;
  PLOG Verbose [LStr "num channels: "; LInt numChannels0] ;;;
  exit_when (numChannels0 <? COMEDI_NUM_CHANNEL)
    (PLOG Error [LStr "Number of available device channels ("; LInt numChannels0;
                 LStr ") smaller than used ("; LInt COMEDI_NUM_CHANNEL; LStr ")"])
    (-1) ;;;
  let numChannels' := COMEDI_NUM_CHANNEL in
  let chanlist' :=
    map (fun i => CR_PACK (Z.of_nat i) COMEDI_RANGE_ID AREF_GROUND)
        (seq 0 (Z.to_nat numChannels')) in
  r0 <- lib (comedi_get_cmd_generic_timed COMEDI_SUB_DEVICE numChannels' SAMPLING_PERIOD_NS) ;;
  let (ret0, cmd0) := r0 : Z * comedi_cmd in
  exit_when (ret0 <? 0) (PLOG Error [LStr "comedi_get_cmd_generic_timed failed"]) (-1) ;;;
  let cmd1 :=
    {| scan_begin_src := scan_begin_src cmd0; scan_begin_arg := scan_begin_arg cmd0;
       convert_src := convert_src cmd0; convert_arg := convert_arg cmd0;
       stop_src := TRIG_NONE; stop_arg := 0;
       cmd_chanlist := chanlist'; cmd_chanlist_len := cmd_chanlist_len cmd0 |} in
  r1 <- lib (comedi_command_test cmd1) ;;
  let (ret1, cmd2) := r1 : Z * comedi_cmd in
  PLOG Info [LStr "first test returned "; LInt ret1] ;;;
  exit_when (ret1 <? 0)
    (PLOG Error [LStr "Comedi test command failed"] ;;; comedi_perror "comedi_command_test")
    (-1) ;;;
  r2 <- lib (comedi_command_test cmd2) ;;
  let (ret2, cmd3) := r2 : Z * comedi_cmd in
  PLOG Info [LStr "second test returned "; LInt ret2] ;;;
  exit_when (ret2 <? 0)
    (PLOG Error [LStr "Comedi test command failed"] ;;; comedi_perror "comedi_command_test")
    (-1) ;;;
  let sampling_rate1 :=
    if (convert_src cmd3 =? TRIG_TIMER) && negb (convert_arg cmd3 =? 0)
    then ddiv (ddiv d_1E9 (d_of_Z (convert_arg cmd3))) (d_of_Z numChannels')
    else sampling_rate mem in
  PLOG Verbose [LStr "sampling rate (channel by channel): "; LDbl sampling_rate1] ;;;
  let sampling_rate2 :=
    if (scan_begin_src cmd3 =? TRIG_TIMER) && negb (scan_begin_arg cmd3 =? 0)
    then ddiv d_1E9 (d_of_Z (scan_begin_arg cmd3))
    else sampling_rate1 in
  PLOG Verbose [LStr "sampling rate (all channels): "; LDbl sampling_rate2] ;;;
  ret3 <- lib (comedi_command cmd3) ;;
  exit_when (ret3 <? 0)
    (PLOG Error [LStr "Comedi command failed"] ;;; comedi_perror "comedi_command")
    1 ;;;
  subdev_flags <- lib (comedi_get_subdevice_flags COMEDI_SUB_DEVICE) ;;
  let sigmaBoard' := negb (Z.land subdev_flags SDF_LSAMPL =? 0) in
  (if sigmaBoard' then ret tt
   else PLOG Warning
          [LStr "Detected device is not a sigma board, ADC resolution might not be sufficient."]) ;;;
  let readSize' :=
    if sigmaBoard' then sizeof_lsampl_t * numChannels' else sizeof_sampl_t * numChannels' in
  modify (set_this
    {| adChannel := adChannel'; maxdata := maxdata'; crange := crange';
       numChannels := numChannels'; chanlist := chanlist'; comediCommand := cmd3;
       sampling_rate := sampling_rate2; sigmaBoard := sigmaBoard'; readSize := readSize' |}).

(** *** ComediHandler::getSamplingRate *)
Definition getSamplingRate : Proc State double :=
  st <- get ;; ret (sampling_rate (this st)).

(** *** ComediHandler::getBufferContents *)
Definition getBufferContents : Proc State Z :=
  lib (comedi_get_buffer_contents COMEDI_SUB_DEVICE).

(** *** ComediHandler::readRawSample *)
Definition readRawSample : Proc State Z :=
  st <- get ;;
  let h := this st in
  r <- read (comedi_fileno (device st)) (readSize h) ;;
  let (n, buffer) := r : Z * list Byte.byte in
  exit_when (n =? 0) (PLOG Error [LStr "Error reading from device: end of acquisition!"]) (-1) ;;;
  let v :=
    if sigmaBoard h
    then to_int (load big_endian sizeof_lsampl_t buffer (adChannel h))
    else to_int (load big_endian sizeof_sampl_t buffer (adChannel h)) in
  ret v.

(** *** ComediHandler::getRawSample *)
Definition getRawSample : Proc State Z := readRawSample.

(** *** ComediHandler::getVoltageSample

    [comedi_to_phys] takes an [lsampl_t]: the [int] is converted. *)
Definition getVoltageSample : Proc State double :=
  v <- readRawSample ;;
  st <- get ;;
  ret (comedi_to_phys (to_lsampl v) (crange (this st)) (maxdata (this st))).

(** *** The caller's side

    Modelled from the spec: the body of the acquisition loop of section 4.1
    (its implementation, [Processing::run], is not among the sources). An
    iteration polls the buffered-sample count; with nothing buffered it
    reads nothing and the loop comes round again, otherwise it pulls exactly
    one sample. *)
Definition acquisition_iteration : Proc State (option double) :=
  n <- getBufferContents ;;
  if 0 <? n then v <- getVoltageSample ;; ret (Some v) else ret None.

Fixpoint acquisition_loop (iterations : nat) : Proc State (list double) :=
  match iterations with
  | O => ret []
  | S k =>
      o <- acquisition_iteration ;;
      rest <- acquisition_loop k ;;
      ret (match o with Some v => v :: rest | None => rest end)
  end.

(** The operations of the handler a client can call once it is constructed. *)
Inductive Op : Type :=
| OpGetSamplingRate
| OpGetBufferContents
| OpGetRawSample
| OpGetVoltageSample.

Definition run_op (op : Op) : Proc State unit :=
  match op with
  | OpGetSamplingRate => getSamplingRate ;;; ret tt
  | OpGetBufferContents => getBufferContents ;;; ret tt
  | OpGetRawSample => getRawSample ;;; ret tt
  | OpGetVoltageSample => getVoltageSample ;;; ret tt
  end.

Fixpoint run_ops (ops : list Op) : Proc State unit :=
  match ops with
  | [] => ret tt
  | op :: ops' => run_op op ;;; run_ops ops'
  end.

(** The sampling rate the constructor derives from the command the driver
    accepted; [fallback] is what the member held before. *)
Definition rate_of_command (cmd : comedi_cmd) (channels : Z) (fallback : double) : double :=
  if (scan_begin_src cmd =? TRIG_TIMER) && negb (scan_begin_arg cmd =? 0)
  then ddiv d_1E9 (d_of_Z (scan_begin_arg cmd))
  else if (convert_src cmd =? TRIG_TIMER) && negb (convert_arg cmd =? 0)
  then ddiv (ddiv d_1E9 (d_of_Z (convert_arg cmd))) (d_of_Z channels)
  else fallback.

(** The state right after the one [read] of [readRawSample], and the state
    the process exits in when that read reported the end of the stream. *)
Definition after_read (st : State) (d : Dev) : State :=
  {| this := this st; device := d; plog := plog st;
     syscalls := syscalls st ++ [SysRead (comedi_fileno (device st)) (readSize (this st))] |}.

Definition end_of_acquisition : LogRecord :=
  (Error, [LStr "Error reading from device: end of acquisition!"]).

Definition after_eof (st : State) (d : Dev) : State :=
  {| this := this st; device := d; plog := plog st ++ [end_of_acquisition];
     syscalls := syscalls st ++ [SysRead (comedi_fileno (device st)) (readSize (this st))] |}.

(** The raw sample [readRawSample] takes out of the buffer. *)
Definition sample_of (h : Handler) (buffer : list Byte.byte) : Z :=
  to_int (load big_endian (if sigmaBoard h then sizeof_lsampl_t else sizeof_sampl_t)
               buffer (adChannel h)).

(** ** Properties *)

Lemma readRawSample_run (st : State) n buffer d :
  sys_read (comedi_fileno (device st)) (readSize (this st)) (device st) = (n, buffer, d) ->
  readRawSample st =
    if n =? 0 then Exits (-1) (after_eof st d)
    else Returns (sample_of (this st) buffer) (after_read st d).
Proof.
  intros Hread.
  unfold readRawSample, bind, get, read, exit_when. rewrite Hread.
  unfold sample_of, after_eof, after_read.
  destruct (n =? 0); cbn; [reflexivity|].
  destruct (sigmaBoard (this st)); reflexivity.
Qed.

Lemma getVoltageSample_run (st : State) n buffer d :
  sys_read (comedi_fileno (device st)) (readSize (this st)) (device st) = (n, buffer, d) ->
  getVoltageSample st =
    if n =? 0 then Exits (-1) (after_eof st d)
    else Returns (comedi_to_phys (to_lsampl (sample_of (this st) buffer))
                    (crange (this st)) (maxdata (this st)))
                 (after_read st d).
Proof.
  intros Hread. unfold getVoltageSample, bind.
  rewrite (readRawSample_run _ _ _ _ Hread).
  destruct (n =? 0); reflexivity.
Qed.

Lemma getBufferContents_run (st : State) :
  getBufferContents st =
    Returns (fst (comedi_get_buffer_contents COMEDI_SUB_DEVICE (device st)))
            (set_device (snd (comedi_get_buffer_contents COMEDI_SUB_DEVICE (device st))) st).
Proof.
  unfold getBufferContents, lib.
  destruct (comedi_get_buffer_contents COMEDI_SUB_DEVICE (device st)); reflexivity.
Qed.

(** Frame: no operation writes a data member. *)
Lemma run_op_this (op : Op) (st : State) :
  this (final_state (run_op op st)) = this st.
Proof.
  destruct op; unfold run_op, bind.
  - reflexivity.
  - rewrite getBufferContents_run. reflexivity.
  - unfold getRawSample.
    destruct (sys_read (comedi_fileno (device st)) (readSize (this st)) (device st))
      as [[n buffer] d] eqn:Hread.
    rewrite (readRawSample_run _ _ _ _ Hread). destruct (n =? 0); reflexivity.
  - destruct (sys_read (comedi_fileno (device st)) (readSize (this st)) (device st))
      as [[n buffer] d] eqn:Hread.
    rewrite (getVoltageSample_run _ _ _ _ Hread). destruct (n =? 0); reflexivity.
Qed.

Lemma run_ops_this (ops : list Op) (st : State) :
  this (final_state (run_ops ops st)) = this st.
Proof.
  revert st. induction ops as [|op ops IH]; intros st; [reflexivity|].
  cbn [run_ops]. unfold bind.
  pose proof (run_op_this op st) as Hop.
  destruct (run_op op st) as [[] st1|status st1|st1]; cbn in Hop |- *.
  - rewrite IH. exact Hop.
  - exact Hop.
  - exact Hop.
Qed.

(** What the constructor leaves in the object when it returns. *)
Definition ctor_members (mem : Handler) (h : Handler) : Prop :=
  adChannel h = 0 /\
  numChannels h = COMEDI_NUM_CHANNEL /\
  readSize h = (if sigmaBoard h then sizeof_lsampl_t else sizeof_sampl_t) * COMEDI_NUM_CHANNEL /\
  sampling_rate h = rate_of_command (comediCommand h) (numChannels h) (sampling_rate mem).

Lemma ComediHandler_ctor_post (st0 : State) :
  post ComediHandler_ctor (fun _ st => ctor_members (this st0) (this st)) st0.
Proof.
  unfold ComediHandler_ctor. apply post_get.
  repeat first
    [ apply post_bind_any; intros
    | match goal with
      | |- post (let (_, _) := ?r in _) _ _ => destruct r
      end ].
  unfold post, modify, set_this, ctor_members, rate_of_command.
  cbn [this adChannel numChannels readSize sigmaBoard sampling_rate comediCommand].
  repeat split.
  destruct (negb _); reflexivity.
Qed.

Lemma ComediHandler_ctor_members (st0 st : State) :
  ComediHandler_ctor st0 = Returns tt st -> ctor_members (this st0) (this st).
Proof.
  intros H. pose proof (ComediHandler_ctor_post st0) as Hpost.
  unfold post in Hpost. rewrite H in Hpost. exact Hpost.
Qed.

(** C7. The sampling rate is fixed for the lifetime of the handler: once
    the constructor has returned, whatever operations are called on the
    handler ([getSamplingRate], [getBufferContents], [getRawSample],
    [getVoltageSample], in any number and order, returning or leaving the
    process), no data member of the object changes, and every call of
    [getSamplingRate] returns, without changing the state, the value the
    constructor computed from the command the driver accepted. *)
Theorem sampling_rate_fixed (st0 st : State) (ops : list Op) :
  ComediHandler_ctor st0 = Returns tt st ->
  let rate :=
    rate_of_command (comediCommand (this st)) COMEDI_NUM_CHANNEL (sampling_rate (this st0)) in
  getSamplingRate st = Returns rate st /\
  this (final_state (run_ops ops st)) = this st /\
  (forall op, this (final_state (run_op op st)) = this st) /\
  (forall st', run_ops ops st = Returns tt st' -> getSamplingRate st' = Returns rate st').
Proof.
  intros Hctor rate.
  destruct (ComediHandler_ctor_members _ _ Hctor) as (_ & Hn & _ & Hrate).
  rewrite Hn in Hrate. fold rate in Hrate.
  assert (Hget : forall s, this s = this st -> getSamplingRate s = Returns rate s).
  { intros s Hs. unfold getSamplingRate, bind, get, ret. rewrite Hs, Hrate. reflexivity. }
  split; [apply Hget; reflexivity|].
  split; [apply run_ops_this|].
  split; [intros op; apply run_op_this|].
  intros st' Hrun. apply Hget.
  pose proof (run_ops_this ops st) as Hthis. rewrite Hrun in Hthis. exact Hthis.
Qed.

(** C6. Every call of [getRawSample] and every call of [getVoltageSample]
    makes exactly one [read] on the device, of [readSize] bytes, whether the
    call returns or not; and when that read did not report the end of the
    stream, both return, [getRawSample] with the sample found in the buffer
    that read filled and [getVoltageSample] with [comedi_to_phys] of that
    same sample, the range and [maxdata] of the handler. *)
Theorem one_read_per_sample (st : State) n buffer d :
  sys_read (comedi_fileno (device st)) (readSize (this st)) (device st) = (n, buffer, d) ->
  let one_read := [SysRead (comedi_fileno (device st)) (readSize (this st))] in
  syscalls (final_state (getRawSample st)) = syscalls st ++ one_read /\
  syscalls (final_state (getVoltageSample st)) = syscalls st ++ one_read /\
  (n <> 0 ->
   getRawSample st = Returns (sample_of (this st) buffer) (after_read st d) /\
   getVoltageSample st =
     Returns (comedi_to_phys (to_lsampl (sample_of (this st) buffer))
                (crange (this st)) (maxdata (this st)))
             (after_read st d)).
Proof.
  intros Hread one_read. unfold getRawSample.
  rewrite (readRawSample_run _ _ _ _ Hread), (getVoltageSample_run _ _ _ _ Hread).
  destruct (Z.eqb_spec n 0) as [->|Hn]; cbn.
  - split; [reflexivity|]. split; [reflexivity|].
    intros Hn. contradiction Hn. reflexivity.
  - split; [reflexivity|]. split; [reflexivity|].
    intros _. split; reflexivity.
Qed.

(** C4. When the read on the device reports the end of the stream (it
    returns 0), [getRawSample] and [getVoltageSample] do not return: the
    error is logged and the process leaves through [exit(-1)] after that one
    read, so nothing a caller would do next runs, and an acquisition loop
    that pulls such a sample ends with that status however many iterations
    it had left. Nothing buffered yet is a different condition:
    [getBufferContents] always returns, reads nothing and logs nothing, and
    an iteration that finds no buffered sample returns without a sample and
    without a read, leaving the loop to poll again. *)
Theorem end_of_stream_is_fatal (st : State) buffer d :
  sys_read (comedi_fileno (device st)) (readSize (this st)) (device st) = (0, buffer, d) ->
  getRawSample st = Exits (-1) (after_eof st d) /\
  getVoltageSample st = Exits (-1) (after_eof st d) /\
  (forall (B : Type) (k : Z -> Proc State B), bind getRawSample k st = Exits (-1) (after_eof st d)) /\
  (forall (B : Type) (k : double -> Proc State B),
      bind getVoltageSample k st = Exits (-1) (after_eof st d)) /\
  plog (after_eof st d) = plog st ++ [end_of_acquisition] /\
  (forall s n s',
      getBufferContents s = Returns n s' ->
      0 < n -> device s' = device st -> this s' = this st ->
      forall iterations,
        exit_status (acquisition_loop (S iterations) s) = Some (-1)) /\
  (forall s, exists n s',
      getBufferContents s = Returns n s' /\
      syscalls s' = syscalls s /\ plog s' = plog s /\ this s' = this s /\
      (n <= 0 -> acquisition_iteration s = Returns None s')).
Proof.
  intros Hread.
  pose proof (readRawSample_run _ _ _ _ Hread) as Hraw.
  pose proof (getVoltageSample_run _ _ _ _ Hread) as Hvolt.
  rewrite Z.eqb_refl in Hraw, Hvolt. unfold getRawSample.
  repeat split.
  - exact Hraw.
  - exact Hvolt.
  - intros B k. unfold bind. rewrite Hraw. reflexivity.
  - intros B k. unfold bind. rewrite Hvolt. reflexivity.
  - intros s n s' Hbuf Hn Hdev Hthis iterations.
    cbn [acquisition_loop]. unfold acquisition_iteration, bind at 1 2.
    rewrite Hbuf.
    destruct (Z.ltb_spec 0 n) as [_|Hle]; [|lia].
    assert (Hread' : sys_read (comedi_fileno (device s')) (readSize (this s')) (device s')
                     = (0, buffer, d)) by (rewrite Hdev, Hthis; exact Hread).
    unfold bind. rewrite (getVoltageSample_run _ _ _ _ Hread'). reflexivity.
  - intros s. rewrite getBufferContents_run.
    eexists _, _. split; [reflexivity|]. cbn.
    repeat split. intros Hn.
    unfold acquisition_iteration, bind. rewrite getBufferContents_run.
    destruct (Z.ltb_spec 0 (fst (comedi_get_buffer_contents COMEDI_SUB_DEVICE (device s))));
      [lia|reflexivity].
Qed.

(** ** Further properties of the handler *)

(** The width in bytes of one cell of the buffer. *)
Definition cell_width (h : Handler) : Z :=
  if sigmaBoard h then sizeof_lsampl_t else sizeof_sampl_t.



Lemma le_value_bound (bs : list Byte.byte) :
  0 <= le_value bs < 256 ^ Z.of_nat (List.length bs).
Proof.
  induction bs as [|b bs IH]; cbn [le_value List.length]; [cbn; lia|].
  rewrite Nat2Z.inj_succ, Z.pow_succ_r by lia.
  pose proof (Byte.to_N_bounded b) as Hb.
  assert (0 <= Z.of_N (Byte.to_N b) <= 255) by lia.
  nia.
Qed.

Lemma load_bound (be : bool) (width : Z) (buffer : list Byte.byte) (i : Z) :
  0 <= width -> 0 <= load be width buffer i < 256 ^ width.
Proof.
  intros Hw. unfold load.
  set (cell := firstn _ _).
  assert (Hlen : List.length cell = Z.to_nat width).
  { unfold cell. rewrite length_firstn, length_app, repeat_length. lia. }
  assert (Hlen' : List.length (if be then rev cell else cell) = Z.to_nat width)
    by (destruct be; [rewrite length_rev|]; exact Hlen).
  pose proof (le_value_bound (if be then rev cell else cell)) as H.
  rewrite Hlen', Z2Nat.id in H by lia. exact H.
Qed.

Lemma to_int_cases (x : Z) :
  0 <= x < 2 ^ 32 ->
  (x < 2 ^ 31 -> to_int x = x) /\
  (2 ^ 31 <= x -> to_int x = x - 2 ^ 32) /\
  to_lsampl (to_int x) = x.
Proof.
  unfold to_int, to_lsampl.
  change (2 ^ 32) with 4294967296. change (2 ^ 31) with 2147483648.
  intros Hx. clear - Hx. repeat split; intros; Z.div_mod_to_equations; lia.
Qed.

Lemma firstn_app_firstn {A : Type} (n : nat) : forall (l pad : list A),
  firstn n (l ++ pad) = firstn n (firstn n l ++ pad).
Proof.
  induction n as [|n IH]; intros l pad; [reflexivity|].
  destruct l as [|x l]; [reflexivity|].
  cbn. rewrite <- IH. reflexivity.
Qed.











(** X4. Once constructed, the handler reads a whole scan at a time, one
    cell for each of the [COMEDI_NUM_CHANNEL] channels, and looks at
    channel 0 only: the sample it takes out of a buffer is decided by the
    first cell, whatever the cells of the other channels hold. *)
Theorem only_first_channel (st0 st : State) :
  ComediHandler_ctor st0 = Returns tt st ->
  adChannel (this st) = 0 /\
  readSize (this st) = cell_width (this st) * COMEDI_NUM_CHANNEL /\
  forall b b' : list Byte.byte,
    firstn (Z.to_nat (cell_width (this st))) b = firstn (Z.to_nat (cell_width (this st))) b' ->
    sample_of (this st) b = sample_of (this st) b'.
Proof.
  intros Hctor.
  destruct (ComediHandler_ctor_members _ _ Hctor) as (Hch & _ & Hsize & _).
  split; [exact Hch|]. split; [exact Hsize|].
  intros b b' Hcell. unfold sample_of, load. rewrite Hch.
  fold (cell_width (this st)). rewrite Z.mul_0_r. cbn [Z.to_nat skipn].
  rewrite (firstn_app_firstn _ b), (firstn_app_firstn _ b'), Hcell. reflexivity.
Qed.

(** X5. The value a sample call returns. With [cell] the unsigned number in
    the cell of the channel, [getVoltageSample] converts exactly [cell]:
    going through [int] loses nothing. [getRawSample] returns [cell] itself
    while it is below 2^31 (always on a device with 16 bit samples) and
    [cell - 2^32], a negative number, from 2^31 on. *)
Theorem sample_values (st : State) n buffer d :
  sys_read (comedi_fileno (device st)) (readSize (this st)) (device st) = (n, buffer, d) ->
  n <> 0 ->
  let cell := load big_endian (cell_width (this st)) buffer (adChannel (this st)) in
  0 <= cell < 256 ^ cell_width (this st) /\
  getVoltageSample st =
    Returns (comedi_to_phys cell (crange (this st)) (maxdata (this st))) (after_read st d) /\
  (exists v, getRawSample st = Returns v (after_read st d) /\
             -2 ^ 31 <= v < 2 ^ 31 /\
             (cell < 2 ^ 31 -> v = cell) /\
             (2 ^ 31 <= cell -> v = cell - 2 ^ 32) /\
             (sigmaBoard (this st) = false -> v = cell)).
Proof.
  intros Hread Hn cell.
  assert (Hw : 0 <= cell_width (this st))
    by (unfold cell_width, sizeof_lsampl_t, sizeof_sampl_t;
        destruct (sigmaBoard (this st)); clear; lia).
  pose proof (load_bound big_endian _ buffer (adChannel (this st)) Hw) as Hcell.
  fold cell in Hcell.
  assert (H32 : 0 <= cell < 2 ^ 32).
  { unfold cell_width, sizeof_lsampl_t, sizeof_sampl_t in Hcell.
    change (2 ^ 32) with 4294967296.
    destruct (sigmaBoard (this st));
      [change (256 ^ 4) with 4294967296 in Hcell|change (256 ^ 2) with 65536 in Hcell];
      clear - Hcell; lia. }
  destruct (to_int_cases cell H32) as (Hsmall & Hlarge & Hback).
  assert (Hsample : sample_of (this st) buffer = to_int cell) by reflexivity.
  split; [exact Hcell|]. split.
  - rewrite (getVoltageSample_run _ _ _ _ Hread).
    destruct (Z.eqb_spec n 0) as [|_]; [contradiction|].
    rewrite Hsample, Hback. reflexivity.
  - exists (to_int cell). unfold getRawSample.
    rewrite (readRawSample_run _ _ _ _ Hread).
    destruct (Z.eqb_spec n 0) as [|_]; [contradiction|].
    rewrite Hsample. split; [reflexivity|].
    split; [|split; [exact Hsmall|split; [exact Hlarge|]]].
    + change (2 ^ 31) with 2147483648 in Hsmall, Hlarge |- *.
      change (2 ^ 32) with 4294967296 in H32, Hlarge.
      destruct (Z_lt_le_dec cell 2147483648) as [Hlt|Hge];
        [rewrite (Hsmall Hlt); clear - H32 Hlt|rewrite (Hlarge Hge); clear - H32 Hge]; lia.
    + intros Hsigma. apply Hsmall.
      unfold cell_width, sizeof_sampl_t in Hcell. rewrite Hsigma in Hcell.
      change (256 ^ 2) with 65536 in Hcell.
      change (2 ^ 31) with 2147483648. clear - Hcell. lia.
Qed.



End Handler.

Arguments LStr {double} s.
Arguments LInt {double} z.
Arguments LDbl {double} d.
Arguments min {double} c.
Arguments max {double} c.
Arguments unit_ {double} c.
Arguments Build_comedi_range {double} min max unit_.
Arguments adChannel {double} h.
Arguments maxdata {double} h.
Arguments crange {double} h.
Arguments numChannels {double} h.
Arguments chanlist {double} h.
Arguments comediCommand {double} h.
Arguments sampling_rate {double} h.
Arguments sigmaBoard {double} h.
Arguments readSize {double} h.
Arguments Build_Handler {double} adChannel maxdata crange numChannels chanlist
  comediCommand sampling_rate sigmaBoard readSize.
Arguments this {double Dev} s.
Arguments device {double Dev} s.
Arguments plog {double Dev} s.
Arguments syscalls {double Dev} s.
Arguments Build_State {double Dev} this device plog syscalls.
Arguments after_read {double Dev} comedi_fileno st d.
Arguments after_eof {double Dev} comedi_fileno st d.
Arguments sample_of {double} big_endian h buffer.
Arguments end_of_acquisition {double}.
Arguments ComediHandler_ctor {double Dev} COMEDI_DEV_PATH COMEDI_SUB_DEVICE COMEDI_RANGE_ID
  COMEDI_NUM_CHANNEL SAMPLING_PERIOD_NS d_1E9 ddiv d_of_Z comedi_open
  comedi_set_global_oor_behavior comedi_get_maxdata comedi_get_range comedi_get_n_channels
  comedi_get_cmd_generic_timed comedi_command_test comedi_command
  comedi_get_subdevice_flags.
Arguments getSamplingRate {double Dev}.
Arguments getBufferContents {double Dev} COMEDI_SUB_DEVICE comedi_get_buffer_contents.
Arguments readRawSample {double Dev} big_endian comedi_fileno sys_read.
Arguments getRawSample {double Dev} big_endian comedi_fileno sys_read.
Arguments getVoltageSample {double Dev} big_endian comedi_fileno comedi_to_phys sys_read.
Arguments acquisition_iteration {double Dev} COMEDI_SUB_DEVICE big_endian
  comedi_get_buffer_contents comedi_fileno comedi_to_phys sys_read.
Arguments acquisition_loop {double Dev} COMEDI_SUB_DEVICE big_endian
  comedi_get_buffer_contents comedi_fileno comedi_to_phys sys_read iterations.
Arguments run_op {double Dev} COMEDI_SUB_DEVICE big_endian comedi_get_buffer_contents
  comedi_fileno comedi_to_phys sys_read op.
Arguments run_ops {double Dev} COMEDI_SUB_DEVICE big_endian comedi_get_buffer_contents
  comedi_fileno comedi_to_phys sys_read ops.
Arguments rate_of_command {double} d_1E9 ddiv d_of_Z cmd channels fallback.
Arguments cell_width {double} h.

End ComediHandler.

(* ================================================================== *)
(** * Window.cpp                                                       *)
(* ================================================================== *)

Module Window.

Local Open Scope string_scope.
Local Open Scope list_scope.

(** The objects of the user interface that the member functions below
    address. *)
Inductive QObject : Type :=
| btnStart | btnCancel | btnReset
| lInstructions
| lMAPval | lSBPval | lDBPval
| lheartRate | lHRvalAV
| meter.

Definition QObject_eq_dec (a b : QObject) : {a = b} + {a <> b}.
Proof. decide equality. Defined.

(** [enum class Screen] *)
Inductive Screen : Type :=
| startScreen | inflateScreen | deflateScreen | emptyCuffScreen | resultScreen.

(** [Qt::ConnectionType], the two values used. *)
Inductive ConnectionType : Type := AutoConnection | QueuedConnection.

(** The threads of the application: the Qt event loop, and the thread of
    the measurement engine, on which the notifications ([eNewData], ...)
    are called. *)
Inductive Thread : Type := GuiThread | AcquisitionThread.

(** The one mutex of the class. *)
Inductive Mutex : Type := mtxPlt.

(** The two plots. *)
Inductive PlotId : Type := pltPre | pltOsc.

Section Gui.

Variable double : Type.

(** The measurement engine behind the pointer [process], and the two
    commands of it the buttons call. *)
Variable Processing : Type.
Variable startMeasurement : Processing -> Processing.
Variable stopMeasurement : Processing -> Processing.

(** The class [Plot]: its state, and [Plot::setNewData]. *)
Variable Plot : Type.
Variable setNewData : double -> Plot -> Plot.

(** [QString::number(double, char format, int precision)] *)
Variable QString_number : double -> ascii -> Z -> string.

(** Whether [QMetaObject::invokeMethod] finds the member on the object. *)
Variable invokable : QObject -> string -> bool.

(** Whether the build defines [NDEBUG]. *)
Variable NDEBUG : bool.

(** [Q_ARG(type, value)] *)
Inductive QArg : Type :=
| ArgQString (s : string)
| ArgDouble (d : double)
| ArgInt (i : Z)
| ArgBool (b : bool).

(** A member invocation handed to [QMetaObject::invokeMethod]. *)
Record Invocation : Type := {
  receiver : QObject;
  member : string;
  connection : ConnectionType;
  args : list QArg
}.

(** What a [replot] has drawn: the state of the plot at that moment. *)
Inductive Painted : Type :=
| PaintedPre (p : Plot)
| PaintedOsc (p : Plot).

(** The state the member functions of [Window] work on. [owner] is the
    thread holding [mtxPlt], [posted] the invocations handed to Qt in the
    order they were made, [painted] what the replots have drawn, [label]
    the text each widget shows. *)
Record Gui : Type := {
  process : Processing;
  currentScreen : Screen;
  plotPre : Plot;
  plotOsc : Plot;
  owner : option Thread;
  posted : list Invocation;
  painted : list Painted;
  label : QObject -> string
}.

Definition set_process (p : Processing) (w : Gui) : Gui :=
  {| process := p; currentScreen := currentScreen w; plotPre := plotPre w;
     plotOsc := plotOsc w; owner := owner w; posted := posted w;
     painted := painted w; label := label w |}.

Definition set_currentScreen (s : Screen) (w : Gui) : Gui :=
  {| process := process w; currentScreen := s; plotPre := plotPre w;
     plotOsc := plotOsc w; owner := owner w; posted := posted w;
     painted := painted w; label := label w |}.

Definition set_plots (pre osc : Plot) (w : Gui) : Gui :=
  {| process := process w; currentScreen := currentScreen w; plotPre := pre;
     plotOsc := osc; owner := owner w; posted := posted w;
     painted := painted w; label := label w |}.

Definition set_owner (o : option Thread) (w : Gui) : Gui :=
  {| process := process w; currentScreen := currentScreen w; plotPre := plotPre w;
     plotOsc := plotOsc w; owner := o; posted := posted w;
     painted := painted w; label := label w |}.

Definition post_invocation (i : Invocation) (w : Gui) : Gui :=
  {| process := process w; currentScreen := currentScreen w; plotPre := plotPre w;
     plotOsc := plotOsc w; owner := owner w; posted := posted w ++ [i];
     painted := painted w; label := label w |}.

Definition paint (p : Painted) (w : Gui) : Gui :=
  {| process := process w; currentScreen := currentScreen w; plotPre := plotPre w;
     plotOsc := plotOsc w; owner := owner w; posted := posted w;
     painted := painted w ++ [p]; label := label w |}.

Definition set_label (o : QObject) (s : string) (w : Gui) : Gui :=
  {| process := process w; currentScreen := currentScreen w; plotPre := plotPre w;
     plotOsc := plotOsc w; owner := owner w; posted := posted w;
     painted := painted w;
     label := fun o' => if QObject_eq_dec o' o then s else label w o' |}.

Local Open Scope proc_scope.

(** [QMetaObject::invokeMethod(obj, member, type, args...)]: when the member
    is found the invocation is handed over and the call answers true,
    otherwise nothing happens and it answers false. *)
Definition invokeMethod (obj : QObject) (m : string) (c : ConnectionType) (a : list QArg)
  : Proc Gui bool :=
  fun w =>
    if invokable obj m
    then Returns true
           (post_invocation {| receiver := obj; member := m; connection := c; args := a |} w)
    else Returns false w.

(** The pair of statements [bOk = QMetaObject::invokeMethod(...); assert(bOk);]. *)
Definition invoke_checked (obj : QObject) (m : string) (c : ConnectionType) (a : list QArg)
  : Proc Gui unit :=
  bOk <- invokeMethod obj m c a ;;
  assert NDEBUG bOk.

(** *** Window::eSwitchScreen *)
Definition eSwitchScreen (eNewScreen : Screen) : Proc Gui unit :=
  (match eNewScreen with
   | startScreen =>
       invoke_checked btnCancel "hide" QueuedConnection [] ;;;
       invoke_checked lInstructions "setCurrentIndex" AutoConnection [ArgInt 0]
   | inflateScreen =>
       invoke_checked btnCancel "show" QueuedConnection [] ;;;
       invoke_checked lInstructions "setCurrentIndex" AutoConnection [ArgInt 1]
   | deflateScreen =>
       invoke_checked btnCancel "show" QueuedConnection [] ;;;
       invoke_checked lInstructions "setCurrentIndex" AutoConnection [ArgInt 2]
   | emptyCuffScreen =>
       invoke_checked btnCancel "show" QueuedConnection [] ;;;
       invoke_checked lInstructions "setCurrentIndex" AutoConnection [ArgInt 3]
   | resultScreen =>
       invoke_checked btnCancel "hide" QueuedConnection [] ;;;
       invoke_checked lInstructions "setCurrentIndex" AutoConnection [ArgInt 4]
   end) ;;;
  modify (set_currentScreen eNewScreen).

(** *** Window::eResults *)
Definition eResults (map sbp dbp : double) : Proc Gui unit :=
  invoke_checked lMAPval "setText" QueuedConnection
    [ArgQString (QString_number map "f"%char 0 ++ " mmHg")%string] ;;;
  invoke_checked lSBPval "setText" QueuedConnection
    [ArgQString (QString_number sbp "f"%char 0 ++ " mmHg")%string] ;;;
  invoke_checked lDBPval "setText" QueuedConnection
    [ArgQString (QString_number dbp "f"%char 0 ++ " mmHg")%string].

(** The two texts [eHeartRate] builds. *)
Definition current_heart_rate_text (heartRate : double) : string :=
  ("Current heart rate:<br><b>" ++ QString_number heartRate "f"%char 0 ++ "</b>")%string.

Definition average_heart_rate_text (heartRate : double) : string :=
  (QString_number heartRate "f"%char 0 ++ " beats/min")%string.

(** *** Window::eHeartRate *)
Definition eHeartRate (heartRate : double) : Proc Gui unit :=
  invoke_checked lheartRate "setText" QueuedConnection
    [ArgQString (current_heart_rate_text heartRate)] ;;;
  invoke_checked lHRvalAV "setText" QueuedConnection
    [ArgQString (average_heart_rate_text heartRate)].

(** *** Window::eReady *)
Definition eReady : Proc Gui unit :=
  invoke_checked btnStart "setDisabled" QueuedConnection [ArgBool false].

(** *** Window::clkBtnStart *)
Definition clkBtnStart : Proc Gui unit :=
  modify (fun w => set_process (startMeasurement (process w)) w).

(** *** Window::clkBtnCancel *)
Definition clkBtnCancel : Proc Gui unit :=
  modify (fun w => set_process (stopMeasurement (process w)) w).

(** *** Window::clkBtnReset *)
Definition clkBtnReset : Proc Gui unit :=
  modify (fun w => set_process (stopMeasurement (process w)) w).

(** *** Signals and slots

    The slots of [Window] that [setupUi] connects to a button, and its
    three [connect] calls for them. *)
Inductive Slot : Type := SlotClkBtnStart | SlotClkBtnCancel | SlotClkBtnReset.

Definition run_slot (s : Slot) : Proc Gui unit :=
  match s with
  | SlotClkBtnStart => clkBtnStart
  | SlotClkBtnCancel => clkBtnCancel
  | SlotClkBtnReset => clkBtnReset
  end.

Definition connections : list (QObject * string * Slot) :=
  [ (btnStart, "released()", SlotClkBtnStart);
    (btnCancel, "released()", SlotClkBtnCancel);
    (btnReset, "released()", SlotClkBtnReset) ].

(** A signal of an object runs the slots connected to it, in the order of
    the connections. *)
Fixpoint run_connected (cs : list (QObject * string * Slot)) (sender : QObject) (signal : string)
  : Proc Gui unit :=
  match cs with
  | [] => ret tt
  | (o, sg, slot) :: cs' =>
      if QObject_eq_dec o sender
      then if String.eqb sg signal
           then run_slot slot ;;; run_connected cs' sender signal
           else run_connected cs' sender signal
      else run_connected cs' sender signal
  end.

Definition emit (sender : QObject) (signal : string) : Proc Gui unit :=
  run_connected connections sender signal.

(** *** The event loop delivering a queued invocation

    [QLabel::setText] with one string argument replaces the text of the
    label; the other members used here leave every text as it is. *)
Definition deliver (i : Invocation) (w : Gui) : Gui :=
  match args i with
  | [ArgQString s] => if String.eqb (member i) "setText" then set_label (receiver i) s w else w
  | _ => w
  end.

Definition deliver_all (invocations : list Invocation) (w : Gui) : Gui :=
  fold_left (fun w' i => deliver i w') invocations w.

(** *** The member functions that touch the plots

    [eNewData] is called on the acquisition thread while [timerEvent] runs
    on the event loop, so these two are given statement by statement: each
    statement is one atomic step of the thread that executes it. *)
Inductive Atomic : Type :=
| Lock (m : Mutex)
| Unlock (m : Mutex)
| PlotSetNewData (p : PlotId) (v : double)
| PlotReplot (p : PlotId)
| InvokeChecked (obj : QObject) (m : string) (c : ConnectionType) (a : list QArg).

(** *** Window::eNewData *)
Definition eNewData (pData oData : double) : list Atomic :=
  [ Lock mtxPlt;
    PlotSetNewData pltPre pData;
    PlotSetNewData pltOsc oData;
    Unlock mtxPlt;
    InvokeChecked meter "setValue" QueuedConnection [ArgDouble pData] ].

(** *** Window::timerEvent *)
Definition timerEvent : list Atomic :=
  [ Lock mtxPlt;
    PlotReplot pltOsc;
    PlotReplot pltPre;
    Unlock mtxPlt ].

(** One statement executed by thread [t]; [None] when the thread cannot
    take the step: [lock] on a mutex that is held blocks, and after a failed
    [assert] the process is gone. [unlock] releases the mutex whoever holds
    it. *)
Definition exec (t : Thread) (a : Atomic) (w : Gui) : option Gui :=
  match a with
  | Lock mtxPlt =>
      match owner w with
      | None => Some (set_owner (Some t) w)
      | Some _ => None
      end
  | Unlock mtxPlt => Some (set_owner None w)
  | PlotSetNewData pltPre v => Some (set_plots (setNewData v (plotPre w)) (plotOsc w) w)
  | PlotSetNewData pltOsc v => Some (set_plots (plotPre w) (setNewData v (plotOsc w)) w)
  | PlotReplot pltPre => Some (paint (PaintedPre (plotPre w)) w)
  | PlotReplot pltOsc => Some (paint (PaintedOsc (plotOsc w)) w)
  | InvokeChecked obj m c a =>
      match invoke_checked obj m c a w with
      | Returns _ w' => Some w'
      | _ => None
      end
  end.

(** The two threads, each with the statements it has yet to execute, and
    the state they share. *)
Record Config : Type := {
  acq : list Atomic;
  gui : list Atomic;
  shared : Gui
}.

(** A step of thread [t]. *)
Definition step (t : Thread) (c : Config) : option Config :=
  match t with
  | AcquisitionThread =>
      match acq c with
      | [] => None
      | a :: rest =>
          match exec t a (shared c) with
          | Some w => Some {| acq := rest; gui := gui c; shared := w |}
          | None => None
          end
      end
  | GuiThread =>
      match gui c with
      | [] => None
      | a :: rest =>
          match exec t a (shared c) with
          | Some w => Some {| acq := acq c; gui := rest; shared := w |}
          | None => None
          end
      end
  end.

(** An interleaving: the threads step in the order the schedule names them. *)
Fixpoint run (schedule : list Thread) (c : Config) : option Config :=
  match schedule with
  | [] => Some c
  | t :: schedule' =>
      match step t c with
      | Some c' => run schedule' c'
      | None => None
      end
  end.

(** The engine notifies the pairs [ds] one after the other while the event
    loop handles [n] timer events. *)
Definition notifications (ds : list (double * double)) : list Atomic :=
  flat_map (fun d => eNewData (fst d) (snd d)) ds.

Definition initial (ds : list (double * double)) (n : nat) (w0 : Gui) : Config :=
  {| acq := notifications ds; gui := List.concat (repeat timerEvent n); shared := w0 |}.

(** The lock discipline of one member function: the mutex is taken and
    given back in turn, a plot is touched only while it is held, and nothing
    but the plots is touched while it is held. *)
Fixpoint well_locked (held : bool) (prog : list Atomic) : bool :=
  match prog with
  | [] => negb held
  | Lock _ :: rest => negb held && well_locked true rest
  | Unlock _ :: rest => held && well_locked false rest
  | PlotSetNewData _ _ :: rest => held && well_locked held rest
  | PlotReplot _ :: rest => held && well_locked held rest
  | InvokeChecked _ _ _ _ :: rest => negb held && well_locked held rest
  end.

Definition plot_access (a : Atomic) : bool :=
  match a with
  | PlotSetNewData _ _ => true
  | PlotReplot _ => true
  | _ => false
  end.

(** The two plots after the first [k] pairs of [ds] went in. *)
Definition frame_pre (ds : list (double * double)) (w0 : Gui) (k : nat) : Plot :=
  fold_left (fun pl d => setNewData (fst d) pl) (firstn k ds) (plotPre w0).

Definition frame_osc (ds : list (double * double)) (w0 : Gui) (k : nat) : Plot :=
  fold_left (fun pl d => setNewData (snd d) pl) (firstn k ds) (plotOsc w0).

(** What one timer event draws when both plots hold the first [k] pairs. *)
Definition timer_paints (ds : list (double * double)) (w0 : Gui) (k : nat) : list Painted :=
  [PaintedOsc (frame_osc ds w0 k); PaintedPre (frame_pre ds w0 k)].

(** No timer event draws a torn pair: what has been drawn since [w0] is,
    timer event by timer event, both plots with the same number of pairs in
    them, the last event possibly having drawn only the first of the two. *)
Definition torn_free (ds : list (double * double)) (w0 : Gui) (log : list Painted) : Prop :=
  exists (ks : list nat) (last : list Painted),
    log = painted w0 ++ flat_map (timer_paints ds w0) ks ++ last /\
    (last = [] \/ exists k, last = [PaintedOsc (frame_osc ds w0 k)]).

(** ** The invariant of the two threads *)

Section Interleaving.

Variable ds : list (double * double).
Variable w0 : Gui.

(** Where the acquisition thread is in [eNewData]: outside the critical
    section, inside it with both plots in step, or inside it with the
    pressure plot one value ahead. *)
Inductive APhase : Type := AOut | AIn | AHalf (p : double).

(** Where the event loop is in [timerEvent]. *)
Inductive GPhase : Type := GOut | GIn | GOscPainted | GBothPainted.

Definition a_holds (ph : APhase) : bool :=
  match ph with AOut => false | _ => true end.

Definition g_holds (ph : GPhase) : bool :=
  match ph with GOut => false | _ => true end.

Definition meter_update (p : double) : Atomic :=
  InvokeChecked meter "setValue" QueuedConnection [ArgDouble p].

(** The statements the acquisition thread has left, with the number of
    pairs that are in both plots. *)
Inductive a_at : list Atomic -> nat -> APhase -> Prop :=
| a_idle k : a_at (notifications (skipn k ds)) k AOut
| a_locked k p o rest :
    skipn k ds = (p, o) :: rest ->
    a_at (PlotSetNewData pltPre p :: PlotSetNewData pltOsc o :: Unlock mtxPlt
            :: meter_update p :: notifications rest) k AIn
| a_half k p o rest :
    skipn k ds = (p, o) :: rest ->
    a_at (PlotSetNewData pltOsc o :: Unlock mtxPlt
            :: meter_update p :: notifications rest) k (AHalf p)
| a_full k p o rest :
    skipn k ds = (p, o) :: rest ->
    a_at (Unlock mtxPlt :: meter_update p :: notifications rest) (S k) AIn
| a_post k p o rest :
    skipn k ds = (p, o) :: rest ->
    a_at (meter_update p :: notifications rest) (S k) AOut.

(** The statements the event loop has left. *)
Inductive g_at : list Atomic -> GPhase -> Prop :=
| g_idle m : g_at (List.concat (repeat timerEvent m)) GOut
| g_locked m :
    g_at (PlotReplot pltOsc :: PlotReplot pltPre :: Unlock mtxPlt
            :: List.concat (repeat timerEvent m)) GIn
| g_osc m :
    g_at (PlotReplot pltPre :: Unlock mtxPlt :: List.concat (repeat timerEvent m)) GOscPainted
| g_both m :
    g_at (Unlock mtxPlt :: List.concat (repeat timerEvent m)) GBothPainted.

Definition holder (aph : APhase) (gph : GPhase) : option Thread :=
  if a_holds aph then Some AcquisitionThread
  else if g_holds gph then Some GuiThread
  else None.

Definition inv (c : Config) : Prop :=
  exists k aph gph ks,
    a_at (acq c) k aph /\
    g_at (gui c) gph /\
    a_holds aph && g_holds gph = false /\
    owner (shared c) = holder aph gph /\
    plotPre (shared c) =
      match aph with
      | AHalf p => setNewData p (frame_pre ds w0 k)
      | _ => frame_pre ds w0 k
      end /\
    plotOsc (shared c) = frame_osc ds w0 k /\
    painted (shared c) =
      painted w0 ++ flat_map (timer_paints ds w0) ks ++
      match gph with
      | GOscPainted => [PaintedOsc (frame_osc ds w0 k)]
      | _ => []
      end.

Lemma firstn_next {A : Type} (l : list A) : forall k x rest,
  skipn k l = x :: rest -> firstn (S k) l = firstn k l ++ [x] /\ skipn (S k) l = rest.
Proof.
  induction l as [|y l IH]; intros k x rest H.
  - destruct k; discriminate H.
  - destruct k as [|k].
    + cbn in H. injection H as -> ->. split; reflexivity.
    + cbn [skipn] in H. destruct (IH k x rest H) as [Hf Hs].
      split.
      * change (firstn (S (S k)) (y :: l)) with (y :: firstn (S k) l).
        rewrite Hf. reflexivity.
      * exact Hs.
Qed.

Lemma frame_pre_next k p o rest :
  skipn k ds = (p, o) :: rest ->
  frame_pre ds w0 (S k) = setNewData p (frame_pre ds w0 k).
Proof.
  intros H. unfold frame_pre. destruct (firstn_next ds k _ _ H) as [-> _].
  rewrite fold_left_app. reflexivity.
Qed.

Lemma frame_osc_next k p o rest :
  skipn k ds = (p, o) :: rest ->
  frame_osc ds w0 (S k) = setNewData o (frame_osc ds w0 k).
Proof.
  intros H. unfold frame_osc. destruct (firstn_next ds k _ _ H) as [-> _].
  rewrite fold_left_app. reflexivity.
Qed.

Lemma inv_initial n : owner w0 = None -> inv (initial ds n w0).
Proof.
  intros Hown. exists 0%nat, AOut, GOut, []. cbn.
  repeat split.
  - exact (a_idle 0).
  - apply g_idle.
  - exact Hown.
  - rewrite app_nil_r. reflexivity.
Qed.

Lemma exec_meter_update t p w w' :
  exec t (meter_update p) w = Some w' ->
  owner w' = owner w /\ plotPre w' = plotPre w /\ plotOsc w' = plotOsc w /\
  painted w' = painted w.
Proof.
  unfold meter_update, exec, invoke_checked, bind, invokeMethod, assert.
  destruct (invokable meter "setValue"); destruct NDEBUG; cbn; intros H;
    try discriminate H; injection H as <-; repeat split.
Qed.

Lemma inv_step_acq c c' :
  step AcquisitionThread c = Some c' -> inv c -> inv c'.
Proof.
  intros Hstep (k & aph & gph & ks & Ha & Hg & Hex & Hown & Hpre & Hosc & Hlog).
  destruct c as [pa pg w]. cbn [acq gui shared] in *.
  unfold step in Hstep. cbn [acq gui shared] in Hstep.
  inversion Ha as [k0 Hk Hpa | k0 p o rest E Hpa | k0 p o rest E Hpa
                   | k0 p o rest E Hpa | k0 p o rest E Hpa]; subst.
  - (* before lock *)
    destruct (skipn k ds) as [|[p o] rest] eqn:E; [discriminate Hstep|].
    cbn in Hstep. rewrite Hown in Hstep.
    destruct gph; cbn in Hstep; try discriminate Hstep.
    injection Hstep as <-.
    exists k, AIn, GOut, ks. cbn. repeat split; auto.
    apply (a_locked k p o rest E).
  - (* first plot *)
    cbn in Hstep. injection Hstep as <-.
    destruct gph; try discriminate Hex.
    exists k, (AHalf p), GOut, ks. cbn. repeat split; auto.
    + apply (a_half k p o rest E).
    + rewrite Hpre. reflexivity.
  - (* second plot *)
    cbn in Hstep. injection Hstep as <-.
    destruct gph; try discriminate Hex.
    exists (S k), AIn, GOut, ks. cbn. repeat split; auto.
    + apply (a_full k p o rest E).
    + rewrite Hpre. symmetry. apply (frame_pre_next _ _ _ _ E).
    + rewrite Hosc. symmetry. apply (frame_osc_next _ _ _ _ E).
  - (* unlock *)
    cbn in Hstep. injection Hstep as <-.
    destruct gph; try discriminate Hex.
    exists (S k0), AOut, GOut, ks. cbn. repeat split; auto.
    apply (a_post k0 p o rest E).
  - (* the meter *)
    destruct (exec AcquisitionThread (meter_update p) w) as [w1|] eqn:Hexec;
      [|discriminate Hstep].
    injection Hstep as <-.
    destruct (exec_meter_update _ _ _ _ Hexec) as (Ho & Hp & Hq & Hl).
    exists (S k0), AOut, gph, ks. cbn [acq gui shared].
    rewrite Ho, Hp, Hq, Hl. repeat split; auto.
    destruct (firstn_next ds k0 _ _ E) as [_ <-]. apply a_idle.
Qed.

Lemma inv_step_gui c c' :
  step GuiThread c = Some c' -> inv c -> inv c'.
Proof.
  intros Hstep (k & aph & gph & ks & Ha & Hg & Hex & Hown & Hpre & Hosc & Hlog).
  destruct c as [pa pg w]. cbn [acq gui shared] in *.
  unfold step in Hstep. cbn [acq gui shared] in Hstep.
  inversion Hg as [m Hpg | m Hpg | m Hpg | m Hpg]; subst.
  - (* before lock *)
    destruct m as [|m]; [discriminate Hstep|].
    cbn in Hstep. rewrite Hown in Hstep.
    destruct aph; cbn in Hstep; try discriminate Hstep.
    injection Hstep as <-.
    exists k, AOut, GIn, ks. cbn. repeat split; auto.
    apply g_locked.
  - (* the oscillation plot *)
    cbn in Hstep. injection Hstep as <-.
    destruct aph; try discriminate Hex.
    exists k, AOut, GOscPainted, ks. cbn. repeat split; auto.
    + apply g_osc.
    + rewrite Hlog, Hosc, app_nil_r, <- app_assoc. reflexivity.
  - (* the pressure plot *)
    cbn in Hstep. injection Hstep as <-.
    destruct aph; try discriminate Hex.
    exists k, AOut, GBothPainted, (ks ++ [k]). cbn. repeat split; auto.
    + apply g_both.
    + rewrite Hlog, Hpre, flat_map_app. cbn. rewrite !app_nil_r, <- !app_assoc.
      reflexivity.
  - (* unlock *)
    cbn in Hstep. injection Hstep as <-.
    destruct aph; try discriminate Hex.
    exists k, AOut, GOut, ks. cbn. repeat split; auto.
    apply g_idle.
Qed.

Lemma inv_run schedule : forall c c',
  run schedule c = Some c' -> inv c -> inv c'.
Proof.
  induction schedule as [|t schedule IH]; intros c c' Hrun Hinv.
  - injection Hrun as <-. exact Hinv.
  - cbn [run] in Hrun. destruct (step t c) as [c1|] eqn:Hstep; [|discriminate Hrun].
    apply (IH c1 c' Hrun).
    destruct t; [apply (inv_step_gui _ _ Hstep Hinv)|apply (inv_step_acq _ _ Hstep Hinv)].
Qed.

End Interleaving.

(** C8. Both member functions that touch the plots, [eNewData] (writing
    the new pair) and [timerEvent] (reading the plots to redraw them), take
    the one mutex [mtxPlt], touch the plots only while they hold it and
    touch nothing else while they hold it. Hence, however the acquisition
    thread notifying any pairs [ds] and the event loop handling any number
    of timer events are interleaved: a thread about to touch a plot holds
    the mutex, and every timer event draws the two plots with the same
    number of pairs in them, never one plot of a pair that is only half
    written. *)
Theorem plots_under_mutex (ds : list (double * double)) (n : nat) (w0 : Gui)
        (schedule : list Thread) (c : Config) :
  owner w0 = None ->
  run schedule (initial ds n w0) = Some c ->
  (forall p o, well_locked false (eNewData p o) = true) /\
  well_locked false timerEvent = true /\
  (forall a rest, acq c = a :: rest -> plot_access a = true ->
     owner (shared c) = Some AcquisitionThread) /\
  (forall a rest, gui c = a :: rest -> plot_access a = true ->
     owner (shared c) = Some GuiThread) /\
  torn_free ds w0 (painted (shared c)).
Proof.
  intros Hown Hrun.
  pose proof (inv_run ds w0 schedule _ _ Hrun (inv_initial ds w0 n Hown)) as Hinv.
  destruct Hinv as (k & aph & gph & ks & Ha & Hg & Hex & Howner & Hpre & Hosc & Hlog).
  split; [reflexivity|]. split; [reflexivity|].
  split; [|split].
  - intros a rest Hacq Hacc. rewrite Howner.
    rewrite Hacq in Ha.
    inversion Ha as [k0 Hk Hpa | k0 p o rest' E Hpa | k0 p o rest' E Hpa
                     | k0 p o rest' E Hpa | k0 p o rest' E Hpa]; subst;
      try reflexivity; try discriminate Hacc.
    match goal with
    | Heq : notifications _ = _ :: _ |- _ =>
        destruct (skipn k ds) as [|[p o] rest']; [discriminate Heq|];
        cbn in Heq; injection Heq as <- _; discriminate Hacc
    end.
  - intros a rest Hgui Hacc. rewrite Howner.
    rewrite Hgui in Hg.
    inversion Hg as [m Hpg | m Hpg | m Hpg | m Hpg]; subst;
      try discriminate Hacc.
    + match goal with
      | Heq : List.concat _ = _ :: _ |- _ =>
          destruct m as [|m]; [discriminate Heq|];
          cbn in Heq; injection Heq as <- _; discriminate Hacc
      end.
    + destruct aph; try discriminate Hex. reflexivity.
    + destruct aph; try discriminate Hex. reflexivity.
  - exists ks. eexists. split; [exact Hlog|].
    destruct gph; auto. right. exists k. reflexivity.
Qed.

(** ** Properties of the notifications and the buttons *)

Lemma invoke_checked_found (obj : QObject) (m : string) (c : ConnectionType) (a : list QArg)
      (w : Gui) :
  invokable obj m = true ->
  invoke_checked obj m c a w =
    Returns tt (post_invocation
                  {| receiver := obj; member := m; connection := c; args := a |} w).
Proof.
  intros H. unfold invoke_checked, bind, invokeMethod, assert. rewrite H.
  rewrite orb_true_r. reflexivity.
Qed.

(** C9. For every heart rate value it is notified of, [eHeartRate] hands
    Qt two [setText] invocations, one for the label of the current heart
    rate and one for the label of the heart rate of the run, both built from
    the same value formatted by [QString::number] with format 'f' and zero
    decimals; once the event loop has delivered them, both labels show that
    value, whatever they showed before, and no other text has changed. The
    function has no way to tell an instantaneous value from an average. *)
Theorem heart_rate_overwrites_both (heartRate : double) (w : Gui) :
  invokable lheartRate "setText" = true ->
  invokable lHRvalAV "setText" = true ->
  let rounded := QString_number heartRate "f"%char 0 in
  let current :=
    {| receiver := lheartRate; member := "setText"; connection := QueuedConnection;
       args := [ArgQString ("Current heart rate:<br><b>" ++ rounded ++ "</b>")%string] |} in
  let average :=
    {| receiver := lHRvalAV; member := "setText"; connection := QueuedConnection;
       args := [ArgQString (rounded ++ " beats/min")%string] |} in
  eHeartRate heartRate w = Returns tt (post_invocation average (post_invocation current w)) /\
  (forall w', eHeartRate heartRate w = Returns tt w' ->
     posted w' = posted w ++ [current; average] /\
     let shown := deliver_all [current; average] w' in
     label shown lheartRate = ("Current heart rate:<br><b>" ++ rounded ++ "</b>")%string /\
     label shown lHRvalAV = (rounded ++ " beats/min")%string /\
     (forall o, o <> lheartRate -> o <> lHRvalAV -> label shown o = label w o)).
Proof.
  intros Hcur Havg rounded current average.
  assert (Hrun : eHeartRate heartRate w
                 = Returns tt (post_invocation average (post_invocation current w))).
  { unfold eHeartRate, bind.
    rewrite (invoke_checked_found _ _ _ _ _ Hcur).
    rewrite (invoke_checked_found _ _ _ _ _ Havg). reflexivity. }
  split; [exact Hrun|].
  intros w' Hw'. rewrite Hrun in Hw'. injection Hw' as <-.
  split.
  - cbn. rewrite <- app_assoc. reflexivity.
  - cbn. repeat split.
    intros o Ho1 Ho2.
    destruct (QObject_eq_dec o lHRvalAV) as [->|_]; [contradiction Ho2; reflexivity|].
    destruct (QObject_eq_dec o lheartRate) as [->|_]; [contradiction Ho1; reflexivity|].
    reflexivity.
Qed.

(** C10. The Reset button and the Cancel button give the engine the same
    command: [clkBtnReset] and [clkBtnCancel] are the same function of the
    state, each calls [stopMeasurement] on the engine once and changes
    nothing else, and so does releasing either button through the
    connections [setupUi] makes. *)
Theorem reset_is_cancel (w : Gui) :
  clkBtnReset w = clkBtnCancel w /\
  clkBtnCancel w = Returns tt (set_process (stopMeasurement (process w)) w) /\
  emit btnReset "released()" w = clkBtnReset w /\
  emit btnCancel "released()" w = clkBtnCancel w /\
  emit btnReset "released()" w = emit btnCancel "released()" w.
Proof.
  repeat split.
Qed.

(** ** What the notifications put on the screen *)

(** The pages of instructions, by the member that holds each: what
    [setupStartPage], [setupInflatePage], [setupDeflatePage],
    [setupEmptyCuffPage] and [setupResultPage] return. *)
Inductive Page : Type :=
| lInstrStart | lInstrPump | lInstrRelease | lInstrDeflate | lInstrResult.

Definition setupStartPage : Page := lInstrStart.
Definition setupInflatePage : Page := lInstrPump.
Definition setupDeflatePage : Page := lInstrRelease.
Definition setupEmptyCuffPage : Page := lInstrDeflate.
Definition setupResultPage : Page := lInstrResult.

(** The pages of [lInstructions], in the order [setupUi] adds them with
    [addWidget]. *)
Definition instruction_pages : list Page :=
  [setupStartPage; setupInflatePage; setupDeflatePage; setupEmptyCuffPage; setupResultPage].

(** The page built for a screen. *)
Definition page_of_screen (s : Screen) : Page :=
  match s with
  | startScreen => setupStartPage
  | inflateScreen => setupInflatePage
  | deflateScreen => setupDeflatePage
  | emptyCuffScreen => setupEmptyCuffPage
  | resultScreen => setupResultPage
  end.

(** The screens of a measurement under way. *)
Definition in_measurement (s : Screen) : bool :=
  match s with
  | inflateScreen | deflateScreen | emptyCuffScreen => true
  | startScreen | resultScreen => false
  end.

(** What the widgets the notifications act on show, besides the texts:
    whether the Cancel button is visible, whether the Start button is
    enabled, and the index of the current page of instructions. *)
Record Shown : Type := {
  cancel_visible : bool;
  start_enabled : bool;
  current_page : Z
}.

(** As [setupUi] leaves them: [btnCancel->hide()], [btnStart->setDisabled(true)],
    and the stacked widget on the first page added. *)
Definition shown_after_setup : Shown :=
  {| cancel_visible := false; start_enabled := false; current_page := 0 |}.

(** The event loop delivering an invocation: [QWidget::show], [QWidget::hide],
    [QWidget::setDisabled], and [QStackedWidget::setCurrentIndex], which does
    nothing for an index that has no page. *)
Definition deliver_shown (i : Invocation) (u : Shown) : Shown :=
  match receiver i, args i with
  | btnCancel, [] =>
      if String.eqb (member i) "show"
      then {| cancel_visible := true; start_enabled := start_enabled u;
              current_page := current_page u |}
      else if String.eqb (member i) "hide"
      then {| cancel_visible := false; start_enabled := start_enabled u;
              current_page := current_page u |}
      else u
  | btnStart, [ArgBool b] =>
      if String.eqb (member i) "setDisabled"
      then {| cancel_visible := cancel_visible u; start_enabled := negb b;
              current_page := current_page u |}
      else u
  | lInstructions, [ArgInt k] =>
      if String.eqb (member i) "setCurrentIndex"
      then if (0 <=? k)%Z && (k <? Z.of_nat (List.length instruction_pages))%Z
           then {| cancel_visible := cancel_visible u; start_enabled := start_enabled u;
                   current_page := k |}
           else u
      else u
  | _, _ => u
  end.

Definition deliver_shown_all (invocations : list Invocation) (u : Shown) : Shown :=
  fold_left (fun u' i => deliver_shown i u') invocations u.

(** The screen and the widgets agree: Cancel is visible exactly during a
    measurement, and the current page is the page built for the screen. *)
Definition in_sync (u : Shown) (w : Gui) : Prop :=
  cancel_visible u = in_measurement (currentScreen w) /\
  nth_error instruction_pages (Z.to_nat (current_page u))
    = Some (page_of_screen (currentScreen w)) /\
  (0 <= current_page u)%Z.

(** The engine notifying one screen after the other. *)
Fixpoint switch_screens (screens : list Screen) : Proc Gui unit :=
  match screens with
  | [] => ret tt
  | s :: screens' => eSwitchScreen s ;;; switch_screens screens'
  end.

(** The members [eSwitchScreen] invokes are found. *)
Definition screen_members_found : Prop :=
  invokable btnCancel "hide" = true /\
  invokable btnCancel "show" = true /\
  invokable lInstructions "setCurrentIndex" = true.

(** The index [eSwitchScreen] passes to [setCurrentIndex]. *)
Definition screen_index (s : Screen) : Z :=
  match s with
  | startScreen => 0
  | inflateScreen => 1
  | deflateScreen => 2
  | emptyCuffScreen => 3
  | resultScreen => 4
  end.

Lemma last_after_head {A : Type} (l : list A) : forall (x d : A),
  last (x :: l) d = last l x.
Proof.
  induction l as [|y l IH]; intros x d; [reflexivity|].
  change (last (x :: y :: l) d) with (last (y :: l) d).
  rewrite (IH y d), (IH y x). reflexivity.
Qed.

Lemma eSwitchScreen_found (s : Screen) (w : Gui) :
  screen_members_found ->
  eSwitchScreen s w =
    Returns tt
      (set_currentScreen s
         (post_invocation
            {| receiver := lInstructions; member := "setCurrentIndex";
               connection := AutoConnection; args := [ArgInt (screen_index s)] |}
            (post_invocation
               {| receiver := btnCancel;
                  member := if in_measurement s then "show" else "hide";
                  connection := QueuedConnection; args := [] |} w))).
Proof.
  intros (Hhide & Hshow & Hidx).
  destruct s; unfold eSwitchScreen, bind;
    rewrite ?(invoke_checked_found _ _ _ _ _ Hhide), ?(invoke_checked_found _ _ _ _ _ Hshow);
    rewrite (invoke_checked_found _ _ _ _ _ Hidx); reflexivity.
Qed.

(** X7. The screen and the widgets stay in step. Starting from widgets
    that agree with [currentScreen] (as after [setupUi]: Cancel hidden,
    first page, start screen), any sequence of [eSwitchScreen]
    notifications returns, leaves [currentScreen] at the last screen
    notified, and once the event loop has delivered what they posted the
    Cancel button is visible exactly if that screen is one of the three
    screens of a measurement and the page of instructions is the page
    [setupUi] built for that screen; the Start button is as it was. *)
Theorem screens_stay_in_sync (screens : list Screen) (w : Gui) (u : Shown) :
  screen_members_found ->
  in_sync u w ->
  exists w' new,
    switch_screens screens w = Returns tt w' /\
    posted w' = posted w ++ new /\
    currentScreen w' = last screens (currentScreen w) /\
    in_sync (deliver_shown_all new u) w' /\
    start_enabled (deliver_shown_all new u) = start_enabled u /\
    process w' = process w /\ plotPre w' = plotPre w /\ plotOsc w' = plotOsc w.
Proof.
  intros Hfound. revert w u.
  induction screens as [|s screens IH]; intros w u Hsync.
  - exists w, []. cbn. rewrite app_nil_r. repeat split; try apply Hsync.
  - cbn [switch_screens]. unfold bind. rewrite (eSwitchScreen_found s w Hfound).
    set (w1 := set_currentScreen s _).
    set (u1 := deliver_shown_all
                 [ {| receiver := btnCancel;
                      member := if in_measurement s then "show" else "hide";
                      connection := QueuedConnection; args := [] |};
                   {| receiver := lInstructions; member := "setCurrentIndex";
                      connection := AutoConnection; args := [ArgInt (screen_index s)] |} ] u).
    assert (Hsync1 : in_sync u1 w1).
    { unfold in_sync, u1, w1. destruct s; cbn; (split; [reflexivity|]);
        (split; [reflexivity|]); lia. }
    assert (Hstart1 : start_enabled u1 = start_enabled u)
      by (unfold u1; destruct s; reflexivity).
    destruct (IH w1 u1 Hsync1) as (w' & new & Hrun & Hposted & Hcur & Hsync' & Hstart & Hp & Hpre & Hosc).
    exists w', ([ {| receiver := btnCancel;
                     member := if in_measurement s then "show" else "hide";
                     connection := QueuedConnection; args := [] |};
                  {| receiver := lInstructions; member := "setCurrentIndex";
                     connection := AutoConnection; args := [ArgInt (screen_index s)] |} ] ++ new).
    split; [exact Hrun|].
    split; [rewrite Hposted; cbn; rewrite <- !app_assoc; reflexivity|].
    split; [rewrite Hcur; symmetry; apply last_after_head|].
    unfold deliver_shown_all in *. rewrite fold_left_app.
    split; [exact Hsync'|]. split; [exact (eq_trans Hstart Hstart1)|].
    rewrite Hp, Hpre, Hosc. repeat split.
Qed.

(** X8. [eResults] hands Qt three [setText] invocations, for the labels of
    MAP, SBP and DBP in this order, each value formatted with format 'f' and
    zero decimals and followed by " mmHg". Once delivered the three labels
    show them whatever they showed before; every other text, the screen,
    the Cancel and Start buttons and the page of instructions are as they
    were: showing the result page is not part of this notification. *)
Theorem results_displayed (map sbp dbp : double) (w : Gui) (u : Shown) :
  invokable lMAPval "setText" = true ->
  invokable lSBPval "setText" = true ->
  invokable lDBPval "setText" = true ->
  exists w' new,
    eResults map sbp dbp w = Returns tt w' /\
    posted w' = posted w ++ new /\
    List.map receiver new = [lMAPval; lSBPval; lDBPval] /\
    label (deliver_all new w') lMAPval = (QString_number map "f"%char 0 ++ " mmHg")%string /\
    label (deliver_all new w') lSBPval = (QString_number sbp "f"%char 0 ++ " mmHg")%string /\
    label (deliver_all new w') lDBPval = (QString_number dbp "f"%char 0 ++ " mmHg")%string /\
    (forall o, o <> lMAPval -> o <> lSBPval -> o <> lDBPval ->
               label (deliver_all new w') o = label w o) /\
    currentScreen w' = currentScreen w /\
    deliver_shown_all new u = u.
Proof.
  intros Hmap Hsbp Hdbp.
  eexists. eexists. split.
  - unfold eResults, bind.
    rewrite (invoke_checked_found _ _ _ _ _ Hmap).
    rewrite (invoke_checked_found _ _ _ _ _ Hsbp).
    rewrite (invoke_checked_found _ _ _ _ _ Hdbp). reflexivity.
  - split; [cbn; rewrite <- !app_assoc; reflexivity|].
    cbn. repeat split.
    intros o Ho1 Ho2 Ho3.
    destruct (QObject_eq_dec o lDBPval) as [->|_]; [contradiction Ho3; reflexivity|].
    destruct (QObject_eq_dec o lSBPval) as [->|_]; [contradiction Ho2; reflexivity|].
    destruct (QObject_eq_dec o lMAPval) as [->|_]; [contradiction Ho1; reflexivity|].
    reflexivity.
Qed.

(** X9. The Start button, which [setupUi] leaves disabled, is enabled by
    [eReady]: the notification hands Qt one [setDisabled(false)] for it, and
    after delivery the button is enabled while the Cancel button, the page
    of instructions, the screen and every text are as before. *)
Theorem ready_enables_start (w : Gui) (u : Shown) :
  invokable btnStart "setDisabled" = true ->
  start_enabled shown_after_setup = false /\
  exists w' i,
    eReady w = Returns tt w' /\
    posted w' = posted w ++ [i] /\
    start_enabled (deliver_shown i u) = true /\
    cancel_visible (deliver_shown i u) = cancel_visible u /\
    current_page (deliver_shown i u) = current_page u /\
    currentScreen w' = currentScreen w /\
    (forall o, label (deliver i w') o = label w o).
Proof.
  intros Hfound. split; [reflexivity|].
  eexists. eexists. split.
  - unfold eReady. rewrite (invoke_checked_found _ _ _ _ _ Hfound). reflexivity.
  - cbn. repeat split.
Qed.

Lemma invoke_checked_release (obj : QObject) (m : string) (c : ConnectionType)
      (a : list QArg) (w : Gui) :
  NDEBUG = true ->
  invoke_checked obj m c a w =
    Returns tt (if invokable obj m
                then post_invocation
                       {| receiver := obj; member := m; connection := c; args := a |} w
                else w).
Proof.
  intros H. unfold invoke_checked, bind, invokeMethod, assert. rewrite H.
  destruct (invokable obj m); reflexivity.
Qed.

(** X10. The assertions on [invokeMethod]. When the member [eSwitchScreen]
    invokes on the Cancel button is not found, a build with assertions
    aborts at once, with nothing posted and the screen unchanged; a build
    with [NDEBUG] goes on: it returns with [currentScreen] changed although
    no invocation went to the Cancel button. *)
Theorem switch_screen_member_missing (s : Screen) (w : Gui) :
  invokable btnCancel (if in_measurement s then "show" else "hide") = false ->
  (NDEBUG = false -> eSwitchScreen s w = Aborts w) /\
  (NDEBUG = true ->
   exists w', eSwitchScreen s w = Returns tt w' /\
              currentScreen w' = s /\
              forall i, In i (posted w') -> In i (posted w) \/ receiver i = lInstructions).
Proof.
  intros Hmissing. split; intros Hbuild.
  - destruct s; cbn in Hmissing;
      unfold eSwitchScreen, bind, invoke_checked, bind, invokeMethod, assert;
      rewrite Hmissing, Hbuild; reflexivity.
  - assert (Hrun : eSwitchScreen s w =
                   Returns tt (set_currentScreen s
                     (if invokable lInstructions "setCurrentIndex"
                      then post_invocation
                             {| receiver := lInstructions; member := "setCurrentIndex";
                                connection := AutoConnection;
                                args := [ArgInt (screen_index s)] |} w
                      else w))).
    { destruct s; cbn in Hmissing;
        unfold eSwitchScreen, bind; rewrite !(invoke_checked_release _ _ _ _ _ Hbuild);
        rewrite Hmissing; destruct (invokable lInstructions "setCurrentIndex"); reflexivity. }
    eexists. split; [exact Hrun|]. split; [reflexivity|].
    intros i Hi. destruct (invokable lInstructions "setCurrentIndex"); cbn in Hi.
    + apply in_app_or in Hi. destruct Hi as [Hi|[<-|[]]]; [left; exact Hi|right; reflexivity].
    + left. exact Hi.
Qed.

(** X11. What a signal of a button, a label or the meter does, through the
    connections [setupUi] makes for the three buttons. [released()] of the
    Start button calls [startMeasurement] on the engine once, [released()]
    of the Cancel or of the Reset button calls [stopMeasurement] once, and
    nothing else of the window changes; any other signal of a button, and
    every signal of a label or of the meter, runs no slot and changes
    nothing. *)
Theorem signals_and_slots (sender : QObject) (signal : string) (w : Gui) :
  emit sender signal w =
    Returns tt
      (if String.eqb "released()" signal
       then match sender with
            | btnStart => set_process (startMeasurement (process w)) w
            | btnCancel | btnReset => set_process (stopMeasurement (process w)) w
            | _ => w
            end
       else w).
Proof.
  unfold emit, connections.
  destruct sender; cbn -[String.eqb];
    destruct (String.eqb "released()" signal); reflexivity.
Qed.

(** ** More on the two threads *)

(** The invocation [eNewData] hands Qt for the meter. *)
Definition meter_invocation (p : double) : Invocation :=
  {| receiver := meter; member := "setValue"; connection := QueuedConnection;
     args := [ArgDouble p] |}.

(** A statement that posts nothing. *)
Definition posts_nothing (a : Atomic) : Prop :=
  match a with
  | InvokeChecked _ _ _ _ => False
  | _ => True
  end.

Lemma timer_events_post_nothing (n : nat) :
  Forall posts_nothing (List.concat (repeat timerEvent n)).
Proof.
  induction n as [|n IH]; cbn; [constructor|].
  repeat (constructor; [exact I|]). exact IH.
Qed.

Lemma exec_posts_nothing (t : Thread) (a : Atomic) (w w' : Gui) :
  posts_nothing a -> exec t a w = Some w' -> posted w' = posted w.
Proof.
  intros Ha Hexec. destruct a as [[]|[]|[] v|[]|obj m c args0]; cbn in Hexec, Ha.
  - destruct (owner w); [discriminate Hexec|]. injection Hexec as <-. reflexivity.
  - injection Hexec as <-. reflexivity.
  - injection Hexec as <-. reflexivity.
  - injection Hexec as <-. reflexivity.
  - injection Hexec as <-. reflexivity.
  - injection Hexec as <-. reflexivity.
  - contradiction Ha.
Qed.

Lemma exec_meter_enabled (t : Thread) (p : double) (w : Gui) :
  invokable meter "setValue" = true \/ NDEBUG = true ->
  exists w', exec t (meter_update p) w = Some w'.
Proof.
  intros H. unfold meter_update, exec, invoke_checked, bind, invokeMethod, assert.
  destruct (invokable meter "setValue"); cbn.
  - rewrite orb_true_r. eexists. reflexivity.
  - destruct H as [H|H]; [discriminate H|]. rewrite H. eexists. reflexivity.
Qed.

Section Progress.

Variable ds : list (double * double).
Variable w0 : Gui.

(** Where the acquisition thread is, counted in meter updates: [j] pairs
    are wholly notified, and of the next it has the statements [rest] to
    go before the meter update. *)
Inductive b_at : list Atomic -> nat -> Prop :=
| b_idle j : b_at (notifications (skipn j ds)) j
| b_busy j p o others done todo :
    skipn j ds = (p, o) :: others ->
    done ++ todo = [ Lock mtxPlt; PlotSetNewData pltPre p; PlotSetNewData pltOsc o;
                     Unlock mtxPlt ] ->
    done <> [] ->
    b_at (todo ++ meter_update p :: notifications others) j.

Definition meter_inv (c : Config) : Prop :=
  Forall posts_nothing (gui c) /\
  exists j,
    b_at (acq c) j /\
    posted (shared c) = posted w0 ++ List.map (fun d => meter_invocation (fst d)) (firstn j ds).

Lemma meter_inv_initial (n : nat) : meter_inv (initial ds n w0).
Proof.
  split; [apply timer_events_post_nothing|].
  exists 0%nat. split; [apply (b_idle 0)|]. cbn. rewrite app_nil_r. reflexivity.
Qed.

Lemma meter_inv_step (t : Thread) (c c' : Config) :
  invokable meter "setValue" = true ->
  step t c = Some c' -> meter_inv c -> meter_inv c'.
Proof.
  intros Hfound Hstep (Hgui & j & Hb & Hposted).
  destruct c as [pa pg w]. cbn [acq gui shared] in *.
  destruct t; unfold step in Hstep; cbn [acq gui shared] in Hstep.
  - (* the event loop *)
    destruct pg as [|a pg]; [discriminate Hstep|].
    destruct (exec GuiThread a w) as [w1|] eqn:Hexec; [|discriminate Hstep].
    injection Hstep as <-. inversion Hgui as [|? ? Ha Hrest]; subst.
    split; [exact Hrest|]. exists j. cbn [acq gui shared].
    rewrite (exec_posts_nothing _ _ _ _ Ha Hexec). split; assumption.
  - (* the acquisition thread *)
    inversion Hb as [j0 Hpa | j0 p o others done todo E Hsplit Hdone Hpa]; subst.
    + destruct (skipn j ds) as [|[p o] others] eqn:E; [discriminate Hstep|].
      cbn in Hstep. destruct (owner w); [discriminate Hstep|].
      injection Hstep as <-. split; [exact Hgui|]. exists j. cbn [acq gui shared].
      split; [|exact Hposted].
      apply (b_busy j p o others [Lock mtxPlt]
                    [PlotSetNewData pltPre p; PlotSetNewData pltOsc o; Unlock mtxPlt] E);
        [reflexivity|discriminate].
    + destruct todo as [|a todo].
      * cbn [app] in Hstep.
        destruct (exec AcquisitionThread (meter_update p) w) as [w1|] eqn:Hexec;
          [|discriminate Hstep].
        injection Hstep as <-. split; [exact Hgui|]. exists (S j). cbn [acq gui shared].
        destruct (firstn_next ds j _ _ E) as [Hfirst Hskip].
        split; [rewrite <- Hskip; apply b_idle|].
        unfold meter_update, exec, invoke_checked, bind, invokeMethod, assert in Hexec.
        rewrite Hfound in Hexec. cbn in Hexec. rewrite orb_true_r in Hexec.
        injection Hexec as <-. cbn [posted post_invocation].
        rewrite Hposted, Hfirst, map_app, <- app_assoc. reflexivity.
      * cbn [app] in Hstep.
        destruct (exec AcquisitionThread a w) as [w1|] eqn:Hexec; [|discriminate Hstep].
        injection Hstep as <-. split; [exact Hgui|]. exists j. cbn [acq gui shared].
        assert (Ha : posts_nothing a).
        { destruct done as [|d1 [|d2 [|d3 [|d4 [|d5 done]]]]]; cbn in Hsplit;
            try contradiction; try discriminate Hsplit;
            injection Hsplit; intros; subst; exact I. }
        rewrite (exec_posts_nothing _ _ _ _ Ha Hexec). split; [|exact Hposted].
        apply (b_busy j p o others (done ++ [a]) todo E);
          [rewrite <- app_assoc; exact Hsplit|].
        intros Hnil. apply app_eq_nil in Hnil. destruct Hnil as [_ Hnil]. discriminate Hnil.
Qed.

Lemma meter_inv_run (schedule : list Thread) : forall c c',
  invokable meter "setValue" = true ->
  run schedule c = Some c' -> meter_inv c -> meter_inv c'.
Proof.
  induction schedule as [|t schedule IH]; intros c c' Hfound Hrun Hinv.
  - injection Hrun as <-. exact Hinv.
  - cbn [run] in Hrun. destruct (step t c) as [c1|] eqn:Hstep; [|discriminate Hrun].
    apply (IH c1 c' Hfound Hrun). exact (meter_inv_step t c c1 Hfound Hstep Hinv).
Qed.

Lemma notifications_nil (l : list (double * double)) :
  notifications l = [] -> l = [].
Proof. destruct l as [|[p o] l]; [reflexivity|discriminate]. Qed.

Lemma skipn_nil_firstn (k : nat) (l : list (double * double)) :
  skipn k l = [] -> firstn k l = l.
Proof.
  intros H. rewrite <- (firstn_skipn k l) at 2. rewrite H, app_nil_r. reflexivity.
Qed.

End Progress.

(** X12. The meter follows the pressure. With [setValue] found on the
    meter, in every interleaving of the notifications of [ds] with timer
    events, what has been posted since the start is a [setValue] for the
    meter with the pressure value of each pair notified so far, in the
    order of the pairs and each once; when the acquisition thread is done
    that is every pair of [ds]. *)
Theorem meter_follows_pressure (ds : list (double * double)) (n : nat) (w0 : Gui)
        (schedule : list Thread) (c : Config) :
  invokable meter "setValue" = true ->
  run schedule (initial ds n w0) = Some c ->
  exists j,
    posted (shared c) = posted w0 ++ List.map (fun d => meter_invocation (fst d)) (firstn j ds) /\
    (acq c = [] -> firstn j ds = ds).
Proof.
  intros Hfound Hrun.
  destruct (meter_inv_run ds w0 schedule _ _ Hfound Hrun (meter_inv_initial ds w0 n))
    as (_ & j & Hb & Hposted).
  exists j. split; [exact Hposted|].
  intros Hdone. rewrite Hdone in Hb.
  inversion Hb as [j0 Hpa | j0 p o others done todo E Hsplit Hne Hpa]; subst.
  - apply skipn_nil_firstn. apply notifications_nil. assumption.
  - destruct todo; discriminate.
Qed.

(** X13. No pair is lost and none is applied twice: in every interleaving,
    once the acquisition thread has no statement left, the pressure plot
    holds the pressure values and the oscillation plot the oscillation
    values of all pairs of [ds], put in one after the other in the order
    they were notified. *)
Theorem no_pair_lost (ds : list (double * double)) (n : nat) (w0 : Gui)
        (schedule : list Thread) (c : Config) :
  owner w0 = None ->
  run schedule (initial ds n w0) = Some c ->
  acq c = [] ->
  plotPre (shared c) = fold_left (fun pl d => setNewData (fst d) pl) ds (plotPre w0) /\
  plotOsc (shared c) = fold_left (fun pl d => setNewData (snd d) pl) ds (plotOsc w0).
Proof.
  intros Hown Hrun Hdone.
  destruct (inv_run ds w0 schedule _ _ Hrun (inv_initial ds w0 n Hown))
    as (k & aph & gph & ks & Ha & _ & _ & _ & Hpre & Hosc & _).
  rewrite Hdone in Ha.
  inversion Ha as [k0 Hk Hpa | k0 p o rest E Hpa | k0 p o rest E Hpa
                   | k0 p o rest E Hpa | k0 p o rest E Hpa]; subst.
  assert (Hall : firstn k ds = ds).
  { apply skipn_nil_firstn. apply notifications_nil. assumption. }
  rewrite Hpre, Hosc. unfold frame_pre, frame_osc. rewrite Hall. split; reflexivity.
Qed.

(** X14. The two functions cannot deadlock. With [setValue] found on the
    meter, or in a build with [NDEBUG], every configuration the two
    threads can reach is one where both are done or one where at least one
    of them can take its next step. *)
Theorem no_deadlock (ds : list (double * double)) (n : nat) (w0 : Gui)
        (schedule : list Thread) (c : Config) :
  invokable meter "setValue" = true \/ NDEBUG = true ->
  owner w0 = None ->
  run schedule (initial ds n w0) = Some c ->
  (acq c = [] /\ gui c = []) \/ exists t c', step t c = Some c'.
Proof.
  intros Hmeter Hown Hrun.
  destruct (inv_run ds w0 schedule _ _ Hrun (inv_initial ds w0 n Hown))
    as (k & aph & gph & ks & Ha & Hg & Hex & Howner & _).
  destruct c as [pa pg w]. cbn [acq gui shared] in *.
  assert (Hgui_steps : g_holds gph = true -> exists t c', step t
            {| acq := pa; gui := pg; shared := w |} = Some c').
  { intros Hholds. exists GuiThread.
    inversion Hg as [m Hpg | m Hpg | m Hpg | m Hpg]; subst; try discriminate Hholds;
      eexists; reflexivity. }
  assert (Hacq_steps : a_holds aph = true -> exists t c', step t
            {| acq := pa; gui := pg; shared := w |} = Some c').
  { intros Hholds. exists AcquisitionThread.
    inversion Ha as [k0 Hk Hpa | k0 p o rest E Hpa | k0 p o rest E Hpa
                     | k0 p o rest E Hpa | k0 p o rest E Hpa]; subst;
      try discriminate Hholds; eexists; reflexivity. }
  destruct (g_holds gph) eqn:Egh; [right; apply Hgui_steps; reflexivity|].
  destruct (a_holds aph) eqn:Eah; [right; apply Hacq_steps; reflexivity|].
  unfold holder in Howner. rewrite Eah, Egh in Howner.
  inversion Ha as [k0 Hk Hpa | k0 p o rest E Hpa | k0 p o rest E Hpa
                   | k0 p o rest E Hpa | k0 p o rest E Hpa]; subst;
    try discriminate Eah.
  - destruct (skipn k ds) as [|[p o] rest] eqn:E.
    + inversion Hg as [m Hpg | m Hpg | m Hpg | m Hpg]; subst; try discriminate Egh.
      destruct m as [|m]; [left; split; reflexivity|].
      right. exists GuiThread. unfold step. cbn. rewrite Howner. eexists. reflexivity.
    + right. exists AcquisitionThread. unfold step. cbn. rewrite Howner.
      eexists. reflexivity.
  - right. exists AcquisitionThread. unfold step. cbn [acq gui shared].
    destruct (exec_meter_enabled AcquisitionThread p w Hmeter) as [w' Hexec].
    rewrite Hexec. eexists. reflexivity.
Qed.

End Gui.

Arguments ArgQString {double} s.
Arguments ArgDouble {double} d.
Arguments ArgInt {double} i.
Arguments ArgBool {double} b.
Arguments Build_Invocation {double} receiver member connection args.
Arguments receiver {double} i.
Arguments member {double} i.
Arguments connection {double} i.
Arguments args {double} i.
Arguments PaintedPre {Plot} p.
Arguments PaintedOsc {Plot} p.
Arguments Build_Gui {double Processing Plot} process currentScreen plotPre plotOsc owner
  posted painted label.
Arguments process {double Processing Plot} g.
Arguments currentScreen {double Processing Plot} g.
Arguments plotPre {double Processing Plot} g.
Arguments plotOsc {double Processing Plot} g.
Arguments owner {double Processing Plot} g.
Arguments posted {double Processing Plot} g.
Arguments painted {double Processing Plot} g.
Arguments label {double Processing Plot} g _.
Arguments set_process {double Processing Plot} p w.
Arguments post_invocation {double Processing Plot} i w.
Arguments deliver_all {double Processing Plot} invocations w.
Arguments eHeartRate {double Processing Plot} QString_number invokable NDEBUG heartRate.
Arguments clkBtnStart {double Processing} startMeasurement {Plot}.
Arguments clkBtnCancel {double Processing} stopMeasurement {Plot}.
Arguments clkBtnReset {double Processing} stopMeasurement {Plot}.
Arguments emit {double Processing} startMeasurement stopMeasurement {Plot} sender signal.
Arguments Lock {double} m.
Arguments Unlock {double} m.
Arguments PlotSetNewData {double} p v.
Arguments PlotReplot {double} p.
Arguments InvokeChecked {double} obj m c a.
Arguments eNewData {double} pData oData.
Arguments timerEvent {double}.
Arguments Build_Config {double Processing Plot} acq gui shared.
Arguments acq {double Processing Plot} c.
Arguments gui {double Processing Plot} c.
Arguments shared {double Processing Plot} c.
Arguments exec {double Processing Plot} setNewData invokable NDEBUG t a w.
Arguments step {double Processing Plot} setNewData invokable NDEBUG t c.
Arguments run {double Processing Plot} setNewData invokable NDEBUG schedule c.
Arguments initial {double Processing Plot} ds n w0.
Arguments well_locked {double} held prog.
Arguments plot_access {double} a.
Arguments frame_pre {double Processing Plot} setNewData ds w0 k.
Arguments frame_osc {double Processing Plot} setNewData ds w0 k.
Arguments timer_paints {double Processing Plot} setNewData ds w0 k.
Arguments torn_free {double Processing Plot} setNewData ds w0 log.
Arguments eSwitchScreen {double Processing Plot} invokable NDEBUG eNewScreen.
Arguments eResults {double Processing Plot} QString_number invokable NDEBUG map sbp dbp.
Arguments eReady {double Processing Plot} invokable NDEBUG.
Arguments deliver_shown {double} i u.
Arguments deliver_shown_all {double} invocations u.
Arguments in_sync {double Processing Plot} u w.
Arguments switch_screens {double Processing Plot} invokable NDEBUG screens.
Arguments meter_invocation {double} p.

End Window.

(* ================================================================== *)
(** * Window.cpp: the settings and the texts                           *)
(* ================================================================== *)

Module WindowSettings.

Local Open Scope string_scope.

(** Every object [retranslateUi] gives a text ([pltPre] and [pltOsc] stand
    for the titles of the two plots, [window] for the title of the
    window). *)
Inductive TextWidget : Type :=
| window
| lInfoStart | lInfoPump | lInfoRelease | lInfoDeflate | lInfoResult
| lMeter | btnStart | btnReset | btnCancel | lMeasured
| lMAP | lMAPval | lSBP | lSBPval | lDBP | lDBPval
| lheartRate | lheartRateAV | lHRvalAV | lEstimated
| pltPre | pltOsc
| actionSettings | actionInfo | actionExit | menuMenu.

Definition TextWidget_eq_dec (a b : TextWidget) : {a = b} + {a <> b}.
Proof. decide equality. Defined.

Section Settings.

Variable double : Type.

(** The configuration interface of the engine behind [process]. *)
Variable Processing : Type.
Variable getRatioSBP : Processing -> double.
Variable getRatioDBP : Processing -> double.
Variable getMinNbrPeaks : Processing -> Z.
Variable getPumpUpValue : Processing -> Z.
Variable setRatioSBP : double -> Processing -> Processing.
Variable setRatioDBP : double -> Processing -> Processing.
Variable setMinNbrPeaks : Z -> Processing -> Processing.
Variable setPumpUpValue : Z -> Processing -> Processing.
Variable resetConfigValues : Processing -> Processing.

(** The class [SettingsDialog]; its members carry the prefix [dlg_]. *)
Variable SettingsDialog : Type.
Variable dlg_getRatioSBP : SettingsDialog -> double.
Variable dlg_getRatioDBP : SettingsDialog -> double.
Variable dlg_getMinNbrPeaks : SettingsDialog -> Z.
Variable dlg_getPumpUpValue : SettingsDialog -> Z.
Variable dlg_setRatioSBP : double -> SettingsDialog -> SettingsDialog.
Variable dlg_setRatioDBP : double -> SettingsDialog -> SettingsDialog.
Variable dlg_setMinNbrPeaks : Z -> SettingsDialog -> SettingsDialog.
Variable dlg_setPumpUpValue : Z -> SettingsDialog -> SettingsDialog.

(** [QVariant]: made from a [double] or an [int], and read with
    [toDouble()] or [toInt()]. *)
Variable QVariant : Type.
Variable of_double : double -> QVariant.
Variable of_int : Z -> QVariant.
Variable toDouble : QVariant -> double.
Variable toInt : QVariant -> Z.

(** [QString(text).arg(value)] for a [double] and for an [int]. *)
Variable arg_double : string -> double -> string.
Variable arg_int : string -> Z -> string.

(** What [QSettings] keeps, by key. *)
Definition QSettings : Type := string -> option QVariant.

(** [QSettings::value(key, defaultValue)] *)
Definition value (key : string) (defaultValue : QVariant) (s : QSettings) : QVariant :=
  match s key with
  | Some v => v
  | None => defaultValue
  end.

(** [QSettings::setValue(key, value)] *)
Definition setValue (key : string) (v : QVariant) (s : QSettings) : QSettings :=
  fun k => if String.eqb k key then Some v else s k.

(** The members of [Window] these functions work on, with the store behind
    [QSettings] and the text of every object. *)
Record Win : Type := {
  process : Processing;
  settingsDialog : SettingsDialog;
  settings : QSettings;
  pumpUpVal : Z;
  text : TextWidget -> string
}.

Definition setText (o : TextWidget) (t : string) (w : Win) : Win :=
  {| process := process w; settingsDialog := settingsDialog w; settings := settings w;
     pumpUpVal := pumpUpVal w;
     text := fun o' => if TextWidget_eq_dec o' o then t else text w o' |}.

(** *** Window::retranslateUi *)
Definition retranslateUi (w : Win) : Win :=
  let w := setText window "Oscillometric Blood Pressure Measurement" w in
  let w := setText lInfoStart
    ("<b>Prepare the measurement:</b><br><br>"
     ++ "1. Put the cuff on the upper arm of your non-dominant hand, making sure it is tight.<br>"
     ++ "2. Rest your arm on a flat surface.<br>"
     ++ "3. Take the pump into your dominant hand.<br>"
     ++ "4. Make sure the valve is closed, but you can handle it easily.<br>"
     ++ "5. Press Start when you are ready.") w in
  let w := setText lInfoPump
    (arg_int
       ("<b>Pump-up to %1 mmHg</b><br><br>"
        ++ "Using your dominant hand, where your arm is not in the cuff, quickly pump up the cuff to %1 mmHg.<br><br>"
        ++ "The valve should stay fully closed.<br>"
        ++ "Use the dial above for reference.")
       (pumpUpVal w)) w in
  let w := setText lInfoRelease
    ("<b>Slowly and continuously release pressure.</b><br><br>"
     ++ "Open the valve slightly to release pressure at approximately 3 mmHg/s.<br>"
     ++ "Wait calmly and try not to move. <br><br>"
     ++ "<b>Take your time. The deflation should be as uniform as possible.</b><br><br>") w in
  let w := setText lInfoDeflate
    ("<b>Completely open the valve.</b><br><br>"
     ++ "Wait for the pressure to go down to 0 mmHg.<br><br>"
     ++ "You will see the results next.") w in
  let w := setText lInfoResult "<b>Results:</b><br>" w in
  let w := setText lMeter "<b>Pressure in mmHg:</b>" w in
  let w := setText btnStart "Start" w in
  let w := setText btnReset "Reset" w in
  let w := setText btnCancel "Cancel" w in
  let w := setText lMeasured "measured:" w in
  let w := setText lMAP "<b>MAP:</b>" w in
  let w := setText lMAPval "- mmHg" w in
  let w := setText lSBP (arg_double "<b>SBP (r=%1):</b>" (getRatioSBP (process w))) w in
  let w := setText lSBPval "- mmHg" w in
  let w := setText lDBP (arg_double "<b>DBP (r=%1):</b>" (getRatioDBP (process w))) w in
  let w := setText lDBPval "- mmHg" w in
  let w := setText lheartRate "Current heart rate:<br><b>--</b>" w in
  let w := setText lheartRateAV "Heart rate:" w in
  let w := setText lHRvalAV "- beats/min" w in
  let w := setText lEstimated "estimated:" w in
  let w := setText pltPre "Pressure, low-pass filtered" w in
  let w := setText pltOsc "Oscillations, high-pass filtered" w in
  let w := setText actionSettings "Settings" w in
  let w := setText actionInfo "Info" w in
  let w := setText actionExit "Exit" w in
  setText menuMenu "Menu" w.

(** *** Window::loadSettings *)
Definition loadSettings (w : Win) : Win :=
  let s := settings w in
  let dVal := toDouble (value "ratioSBP" (of_double (getRatioSBP (process w))) s) in
  let dialog := dlg_setRatioSBP dVal (settingsDialog w) in
  let p := setRatioSBP dVal (process w) in
  let dVal := toDouble (value "ratioDBP" (of_double (getRatioDBP p)) s) in
  let dialog := dlg_setRatioDBP dVal dialog in
  let p := setRatioDBP dVal p in
  let iVal := toInt (value "minNbrPeaks" (of_int (getMinNbrPeaks p)) s) in
  let dialog := dlg_setMinNbrPeaks iVal dialog in
  let p := setMinNbrPeaks iVal p in
  let iVal := toInt (value "pumpUpValue" (of_int (getPumpUpValue p)) s) in
  let dialog := dlg_setPumpUpValue iVal dialog in
  let p := setPumpUpValue iVal p in
  {| process := p; settingsDialog := dialog; settings := s; pumpUpVal := iVal;
     text := text w |}.

(** *** Window::updateValues *)
Definition updateValues (w : Win) : Win :=
  let d := settingsDialog w in
  let s := setValue "ratioSBP" (of_double (dlg_getRatioSBP d)) (settings w) in
  let s := setValue "ratioDBP" (of_double (dlg_getRatioDBP d)) s in
  let s := setValue "minNbrPeaks" (of_int (dlg_getMinNbrPeaks d)) s in
  let s := setValue "pumpUpValue" (of_int (dlg_getPumpUpValue d)) s in
  {| process := process w; settingsDialog := d; settings := s; pumpUpVal := pumpUpVal w;
     text := text w |}.

(** *** Window::resetValuesPerform *)
Definition resetValuesPerform (w : Win) : Win :=
  let p := resetConfigValues (process w) in
  let s := setValue "ratioSBP" (of_double (getRatioSBP p)) (settings w) in
  let s := setValue "ratioDBP" (of_double (getRatioDBP p)) s in
  let s := setValue "minNbrPeaks" (of_int (getMinNbrPeaks p)) s in
  let s := setValue "pumpUpValue" (of_int (getPumpUpValue p)) s in
  retranslateUi
    (loadSettings
       {| process := p; settingsDialog := settingsDialog w; settings := s;
          pumpUpVal := pumpUpVal w; text := text w |}).

(** The four keys the window keeps in the settings. *)
Definition setting_keys : list string :=
  ["ratioSBP"; "ratioDBP"; "minNbrPeaks"; "pumpUpValue"].

(** [QVariant] gives back the number it was made from. *)
Definition variant_round_trip : Prop :=
  (forall d, toDouble (of_double d) = d) /\ (forall i, toInt (of_int i) = i).

(** The four values as the engine takes them, one setter after the other
    in the order of [loadSettings], and as the dialog takes them. *)
Definition engine_given (sbp dbp : double) (peaks pump : Z) (p : Processing) : Processing :=
  setPumpUpValue pump (setMinNbrPeaks peaks (setRatioDBP dbp (setRatioSBP sbp p))).

Definition dialog_given (sbp dbp : double) (peaks pump : Z) (d : SettingsDialog)
  : SettingsDialog :=
  dlg_setPumpUpValue pump (dlg_setMinNbrPeaks peaks (dlg_setRatioDBP dbp (dlg_setRatioSBP sbp d))).

(** ** Properties of the settings and the texts *)

Lemma setValue_other (key k : string) (v : QVariant) (s : QSettings) :
  k <> key -> setValue key v s k = s k.
Proof.
  intros H. unfold setValue. destruct (String.eqb_spec k key) as [->|_]; [contradiction|].
  reflexivity.
Qed.

(** X15. Saving and loading the settings is a round trip. After
    [updateValues] has written the values of the dialog to the settings,
    [loadSettings] gives the engine exactly these four values, whatever the
    engine held and whatever the settings held before, sets the dialog to
    them again, and takes the pump-up value of the dialog as the value
    shown in the instructions. *)
Theorem settings_round_trip (w : Win) :
  variant_round_trip ->
  let d := settingsDialog w in
  loadSettings (updateValues w) =
    {| process := engine_given (dlg_getRatioSBP d) (dlg_getRatioDBP d)
                    (dlg_getMinNbrPeaks d) (dlg_getPumpUpValue d) (process w);
       settingsDialog := dialog_given (dlg_getRatioSBP d) (dlg_getRatioDBP d)
                           (dlg_getMinNbrPeaks d) (dlg_getPumpUpValue d) d;
       settings := settings (updateValues w);
       pumpUpVal := dlg_getPumpUpValue d;
       text := text w |}.
Proof.
  intros [Hd Hi] d. subst d.
  vm_compute. rewrite !Hd, !Hi. reflexivity.
Qed.

(** X16. [updateValues] only saves. It leaves the engine, the dialog, the
    pump-up value shown and every text as they are; in the settings it
    writes the four keys with the values of the dialog and leaves every
    other key alone. *)
Theorem update_only_saves (w : Win) :
  process (updateValues w) = process w /\
  settingsDialog (updateValues w) = settingsDialog w /\
  pumpUpVal (updateValues w) = pumpUpVal w /\
  text (updateValues w) = text w /\
  settings (updateValues w) "ratioSBP" = Some (of_double (dlg_getRatioSBP (settingsDialog w))) /\
  settings (updateValues w) "ratioDBP" = Some (of_double (dlg_getRatioDBP (settingsDialog w))) /\
  settings (updateValues w) "minNbrPeaks"
    = Some (of_int (dlg_getMinNbrPeaks (settingsDialog w))) /\
  settings (updateValues w) "pumpUpValue"
    = Some (of_int (dlg_getPumpUpValue (settingsDialog w))) /\
  (forall key, ~ In key setting_keys -> settings (updateValues w) key = settings w key).
Proof.
  repeat (split; [reflexivity|]).
  intros key Hkey. cbn [settings updateValues].
  rewrite !setValue_other; [reflexivity| | | |];
    intros ->; apply Hkey; cbn; auto.
Qed.

Lemma retranslateUi_frame (w : Win) :
  process (retranslateUi w) = process w /\
  settingsDialog (retranslateUi w) = settingsDialog w /\
  settings (retranslateUi w) = settings w /\
  pumpUpVal (retranslateUi w) = pumpUpVal w.
Proof. destruct w. vm_compute. repeat split. Qed.

(** X17. The texts [retranslateUi] sets do not depend on the texts shown
    before, only on the pump-up value and on the two ratios of the engine:
    two windows that agree on these show the same text on every object
    afterwards. So a result on display is replaced by the placeholders, and
    calling the function again changes nothing. The engine, the dialog, the
    settings and the pump-up value are not touched. *)
Theorem retranslate_overwrites (w1 w2 : Win) :
  pumpUpVal w1 = pumpUpVal w2 ->
  getRatioSBP (process w1) = getRatioSBP (process w2) ->
  getRatioDBP (process w1) = getRatioDBP (process w2) ->
  (forall o, text (retranslateUi w1) o = text (retranslateUi w2) o) /\
  (forall o, text (retranslateUi (retranslateUi w1)) o = text (retranslateUi w1) o) /\
  text (retranslateUi w1) lMAPval = "- mmHg" /\
  text (retranslateUi w1) lSBPval = "- mmHg" /\
  text (retranslateUi w1) lDBPval = "- mmHg" /\
  text (retranslateUi w1) lHRvalAV = "- beats/min" /\
  text (retranslateUi w1) lheartRate = "Current heart rate:<br><b>--</b>" /\
  process (retranslateUi w1) = process w1 /\
  settingsDialog (retranslateUi w1) = settingsDialog w1 /\
  settings (retranslateUi w1) = settings w1 /\
  pumpUpVal (retranslateUi w1) = pumpUpVal w1.
Proof.
  intros Hpump Hsbp Hdbp.
  split; [|split].
  - intros o. vm_compute in Hpump, Hsbp, Hdbp.
    destruct o; vm_compute; rewrite ?Hpump, ?Hsbp, ?Hdbp; reflexivity.
  - intros o. destruct o; vm_compute; reflexivity.
  - destruct (retranslateUi_frame w1) as (Hp & Hdlg & Hs & Hv).
    repeat split; first [assumption|vm_compute; reflexivity].
Qed.

(** X18. Resetting the values. With a [QVariant] that gives back the
    number it was made from, [resetValuesPerform] resets the engine, writes
    the four values the reset engine reports to the settings (leaving
    every other key alone), gives these same values to the dialog and to
    the engine, takes the reported pump-up value as the one shown in the
    pump instruction, and puts the placeholders back on the result labels. *)
Theorem reset_values (w : Win) :
  variant_round_trip ->
  let p := resetConfigValues (process w) in
  let w' := resetValuesPerform w in
  process w' = engine_given (getRatioSBP p) (getRatioDBP p) (getMinNbrPeaks p)
                 (getPumpUpValue p) p /\
  settingsDialog w' = dialog_given (getRatioSBP p) (getRatioDBP p) (getMinNbrPeaks p)
                        (getPumpUpValue p) (settingsDialog w) /\
  pumpUpVal w' = getPumpUpValue p /\
  settings w' "ratioSBP" = Some (of_double (getRatioSBP p)) /\
  settings w' "ratioDBP" = Some (of_double (getRatioDBP p)) /\
  settings w' "minNbrPeaks" = Some (of_int (getMinNbrPeaks p)) /\
  settings w' "pumpUpValue" = Some (of_int (getPumpUpValue p)) /\
  (forall key, ~ In key setting_keys -> settings w' key = settings w key) /\
  text w' lInfoPump =
    arg_int
      ("<b>Pump-up to %1 mmHg</b><br><br>"
       ++ "Using your dominant hand, where your arm is not in the cuff, quickly pump up the cuff to %1 mmHg.<br><br>"
       ++ "The valve should stay fully closed.<br>"
       ++ "Use the dial above for reference.")
      (getPumpUpValue p) /\
  text w' lMAPval = "- mmHg" /\ text w' lSBPval = "- mmHg" /\ text w' lDBPval = "- mmHg".
Proof.
  intros [Hd Hi] p w'.
  assert (Hload : forall t,
    loadSettings
      {| process := p; settingsDialog := settingsDialog w;
         settings := setValue "pumpUpValue" (of_int (getPumpUpValue p))
                       (setValue "minNbrPeaks" (of_int (getMinNbrPeaks p))
                          (setValue "ratioDBP" (of_double (getRatioDBP p))
                             (setValue "ratioSBP" (of_double (getRatioSBP p)) (settings w))));
         pumpUpVal := pumpUpVal w; text := t |} =
    {| process := engine_given (getRatioSBP p) (getRatioDBP p) (getMinNbrPeaks p)
                    (getPumpUpValue p) p;
       settingsDialog := dialog_given (getRatioSBP p) (getRatioDBP p) (getMinNbrPeaks p)
                           (getPumpUpValue p) (settingsDialog w);
       settings := setValue "pumpUpValue" (of_int (getPumpUpValue p))
                     (setValue "minNbrPeaks" (of_int (getMinNbrPeaks p))
                        (setValue "ratioDBP" (of_double (getRatioDBP p))
                           (setValue "ratioSBP" (of_double (getRatioSBP p)) (settings w))));
       pumpUpVal := getPumpUpValue p; text := t |}).
  { intros t. vm_compute. rewrite !Hd, !Hi. reflexivity. }
  unfold w', resetValuesPerform. fold p. rewrite Hload.
  set (loaded := Build_Win _ _ _ _ _).
  destruct (retranslateUi_frame loaded) as (Hp & Hdlg & Hs & Hv).
  rewrite Hp, Hdlg, Hs, Hv. unfold loaded. cbn [process settingsDialog settings pumpUpVal].
  repeat (split; [reflexivity|]).
  split.
  - intros key Hkey.
    rewrite !setValue_other; [reflexivity| | | |];
      intros ->; apply Hkey; cbn; auto.
  - subst p. repeat split; vm_compute; reflexivity.
Qed.

End Settings.

Arguments Build_Win {Processing SettingsDialog QVariant} process settingsDialog settings
  pumpUpVal text.
Arguments process {Processing SettingsDialog QVariant} w.
Arguments settingsDialog {Processing SettingsDialog QVariant} w.
Arguments settings {Processing SettingsDialog QVariant} w.
Arguments pumpUpVal {Processing SettingsDialog QVariant} w.
Arguments text {Processing SettingsDialog QVariant} w _.

End WindowSettings.

(* ================================================================== *)
(** * The measurement engine                                           *)
(* ================================================================== *)

(** The engine (the class [Processing] that [Window] holds a pointer to,
    with the estimation algorithm and the measurement state machine) has no
    implementation file among the sources: its definitions below follow the
    words of the specification. Pressures and amplitudes, floating point
    numbers there, are rational numbers here. *)

Module Engine.

Local Open Scope Q_scope.

(** Modelled from the spec: the Envelope Point of section 3 (the engine's
    data types are declared in files that are not among the sources). *)
Record EnvelopePoint : Type := {
  cuffPressure : Q;
  oscillationAmplitude : Q
}.

(** Modelled from the spec: MeasurementConfig of section 3. *)
Record MeasurementConfig : Type := {
  ratioSBP : Q;
  ratioDBP : Q;
  minNbrPeaks : nat;
  pumpUpTarget : Q
}.

(** Modelled from the spec: MeasurementResult of section 3, and the two
    failures of the estimation named in sections 4.5 and 7. *)
Record MeasurementResult : Type := {
  map : Q;
  sbp : Q;
  dbp : Q
}.

Inductive EstimationError : Type := InsufficientData | RatioCrossingNotFound.

Inductive Estimate : Type :=
| Estimated (r : MeasurementResult)
| Failed (e : EstimationError).

Definition Qltb (x y : Q) : bool := negb (Qle_bool y x).

(** ** The estimation algorithm (section 4.5) *)

(** Modelled from the spec: step 2 of the estimation algorithm of section
    4.5 (the algorithm's implementation is not among the sources), the
    argmax over the amplitude, "first occurrence wins". The scan keeps the
    index and the point of the largest amplitude seen so far and replaces
    them only by a strictly larger one. *)
Fixpoint argmax_from (best : nat * EnvelopePoint) (i : nat) (pts : list EnvelopePoint)
  : nat * EnvelopePoint :=
  match pts with
  | [] => best
  | p :: rest =>
      argmax_from
        (if Qltb (oscillationAmplitude (snd best)) (oscillationAmplitude p)
         then (i, p) else best)
        (S i) rest
  end.

Definition argmax (pts : list EnvelopePoint) : option (nat * EnvelopePoint) :=
  match pts with
  | [] => None
  | p :: rest => Some (argmax_from (0%nat, p) 1%nat rest)
  end.

(** Modelled from the spec: "MAP = the cuff pressure at the point of maximum
    oscillation amplitude". *)
Definition estimated_MAP (pts : list EnvelopePoint) : option Q :=
  match argmax pts with
  | Some (_, pm) => Some (cuffPressure pm)
  | None => None
  end.

(** Modelled from the spec: "maxAmplitude", the amplitude at that point. *)
Definition maxAmplitude (pts : list EnvelopePoint) : Q :=
  match argmax pts with
  | Some (_, pm) => oscillationAmplitude pm
  | None => 0
  end.

(** Modelled from the spec: the points "at or above MAP" and "at or below
    MAP". The sequence is in the order of the deflation, so the first are
    the points up to and including the one of MAP, the second the points
    from it on. *)
Definition high_side (pts : list EnvelopePoint) : list EnvelopePoint :=
  match argmax pts with
  | Some (imax, _) => firstn (S imax) pts
  | None => []
  end.

Definition low_side (pts : list EnvelopePoint) : list EnvelopePoint :=
  match argmax pts with
  | Some (imax, _) => skipn imax pts
  | None => []
  end.

(** Modelled from the spec: "whose amplitude falls to or below that target". *)
Definition at_or_below (target : Q) (p : EnvelopePoint) : bool :=
  Qle_bool (oscillationAmplitude p) target.

(** Modelled from the spec: the estimation algorithm, steps 1 to 5 of
    section 4.5 (its implementation is not among the sources). "Scanning
    from MAP upward in pressure" goes through the high side backwards,
    "scanning from MAP downward" through the low side forwards. An empty
    sequence, which a configuration with [minNbrPeaks >= 1] never lets
    through step 1, has no maximum and is insufficient data as well. *)
Definition estimate (cfg : MeasurementConfig) (pts : list EnvelopePoint) : Estimate :=
  if (List.length pts <? minNbrPeaks cfg)%nat then Failed InsufficientData
  else
    match estimated_MAP pts with
    | None => Failed InsufficientData
    | Some MAP =>
        match find (at_or_below (ratioSBP cfg * maxAmplitude pts)) (rev (high_side pts)),
              find (at_or_below (ratioDBP cfg * maxAmplitude pts)) (low_side pts) with
        | Some ps, Some pd =>
            Estimated {| map := MAP; sbp := cuffPressure ps; dbp := cuffPressure pd |}
        | _, _ => Failed RatioCrossingNotFound
        end
    end.

(** No point of [side] has an amplitude at or below [ratio] times the
    maximum amplitude. *)
Definition no_crossing (ratio : Q) (pts side : list EnvelopePoint) : Prop :=
  forall q, In q side -> ratio * maxAmplitude pts < oscillationAmplitude q.

(** Modelled from the spec: the input "ordered by decreasing cuff
    pressure": no point has a higher pressure than a point before it. *)
Fixpoint deflation (pts : list EnvelopePoint) : Prop :=
  match pts with
  | [] => True
  | p :: rest =>
      (forall q, In q rest -> cuffPressure q <= cuffPressure p) /\ deflation rest
  end.

(** [pm] is the first point of maximum amplitude of [before ++ pm :: after]. *)
Definition first_maximum (before : list EnvelopePoint) (pm : EnvelopePoint)
           (after : list EnvelopePoint) : Prop :=
  (forall q, In q before -> oscillationAmplitude q < oscillationAmplitude pm) /\
  (forall q, In q after -> oscillationAmplitude q <= oscillationAmplitude pm).

(** The end-to-end scenario of section 8: six peaks, the largest amplitude
    10 at 110 mmHg. *)
Definition scenario_config : MeasurementConfig :=
  {| ratioSBP := 55 # 100; ratioDBP := 75 # 100; minNbrPeaks := 3; pumpUpTarget := 180 |}.

Definition scenario_envelope : list EnvelopePoint :=
  [ {| cuffPressure := 160; oscillationAmplitude := 4 |};
    {| cuffPressure := 135; oscillationAmplitude := 7 |};
    {| cuffPressure := 110; oscillationAmplitude := 10 |};
    {| cuffPressure := 85; oscillationAmplitude := 7 |};
    {| cuffPressure := 60; oscillationAmplitude := 4 |};
    {| cuffPressure := 35; oscillationAmplitude := 1 |} ].

(** ** Properties of the estimation algorithm *)

Lemma Qltb_true (x y : Q) : Qltb x y = true <-> x < y.
Proof.
  unfold Qltb. rewrite negb_true_iff. split.
  - intros H. apply Qnot_le_lt. intros Hle.
    apply Qle_bool_iff in Hle. congruence.
  - intros H. destruct (Qle_bool y x) eqn:E; [|reflexivity].
    apply Qle_bool_iff in E. exfalso. exact (Qlt_not_le _ _ H E).
Qed.

Lemma Qltb_false (x y : Q) : Qltb x y = false <-> y <= x.
Proof.
  unfold Qltb. rewrite negb_false_iff. apply Qle_bool_iff.
Qed.

Lemma at_or_below_true (t : Q) (p : EnvelopePoint) :
  at_or_below t p = true <-> oscillationAmplitude p <= t.
Proof. apply Qle_bool_iff. Qed.

Lemma at_or_below_false (t : Q) (p : EnvelopePoint) :
  at_or_below t p = false <-> t < oscillationAmplitude p.
Proof.
  unfold at_or_below. split.
  - intros H. apply Qnot_le_lt. intros Hle. apply Qle_bool_iff in Hle. congruence.
  - intros H. destruct (Qle_bool (oscillationAmplitude p) t) eqn:E; [|reflexivity].
    apply Qle_bool_iff in E. exfalso. exact (Qlt_not_le _ _ H E).
Qed.

(** [find] returns the first element that passes the test. *)
Lemma find_first {A : Type} (f : A -> bool) (l1 : list A) (x : A) (l2 : list A) :
  (forall y, In y l1 -> f y = false) -> f x = true ->
  find f (l1 ++ x :: l2) = Some x.
Proof.
  induction l1 as [|y l1 IH]; intros Hl1 Hx; cbn.
  - rewrite Hx. reflexivity.
  - rewrite (Hl1 y (or_introl eq_refl)). apply IH; [|exact Hx].
    intros z Hz. apply Hl1. right. exact Hz.
Qed.

Lemma find_nothing {A : Type} (f : A -> bool) (l : list A) :
  (forall y, In y l -> f y = false) -> find f l = None.
Proof.
  induction l as [|y l IH]; intros H; cbn; [reflexivity|].
  rewrite (H y (or_introl eq_refl)). apply IH. intros z Hz. apply H. right. exact Hz.
Qed.

Lemma find_split {A : Type} (f : A -> bool) (l : list A) (x : A) :
  find f l = Some x ->
  exists l1 l2, l = l1 ++ x :: l2 /\ f x = true /\ forall y, In y l1 -> f y = false.
Proof.
  induction l as [|y l IH]; cbn; intros H; [discriminate H|].
  destruct (f y) eqn:E.
  - injection H as ->. exists [], l. repeat split; [exact E|]. intros z [].
  - destruct (IH H) as (l1 & l2 & -> & Hx & Hl1).
    exists (y :: l1), l2. repeat split; [exact Hx|].
    intros z [<-|Hz]; [exact E|apply Hl1; exact Hz].
Qed.

(** Once at the maximum, the scan stays there. *)
Lemma argmax_from_stay (after : list EnvelopePoint) : forall best i,
  (forall q, In q after -> oscillationAmplitude q <= oscillationAmplitude (snd best)) ->
  argmax_from best i after = best.
Proof.
  induction after as [|q after IH]; intros best i H; cbn; [reflexivity|].
  assert (Hq : Qltb (oscillationAmplitude (snd best)) (oscillationAmplitude q) = false).
  { apply Qltb_false. apply H. left. reflexivity. }
  rewrite Hq. apply IH. intros z Hz. apply H. right. exact Hz.
Qed.

(** The scan moves to the first point above everything before it. *)
Lemma argmax_from_reach (before : list EnvelopePoint) :
  forall best i pm after,
  oscillationAmplitude (snd best) < oscillationAmplitude pm ->
  first_maximum before pm after ->
  argmax_from best i (before ++ pm :: after) = ((i + List.length before)%nat, pm).
Proof.
  induction before as [|q before IH]; intros best i pm after Hbest [Hb Ha].
  - cbn. apply Qltb_true in Hbest. rewrite Hbest.
    rewrite Nat.add_0_r. apply argmax_from_stay. exact Ha.
  - cbn [app argmax_from List.length].
    rewrite Nat.add_succ_r, <- Nat.add_succ_l. apply IH.
    + destruct (Qltb _ _); cbn; [apply Hb; left; reflexivity|exact Hbest].
    + split; [|exact Ha]. intros z Hz. apply Hb. right. exact Hz.
Qed.

Lemma argmax_first_maximum (before : list EnvelopePoint) (pm : EnvelopePoint)
      (after : list EnvelopePoint) :
  first_maximum before pm after ->
  argmax (before ++ pm :: after) = Some (List.length before, pm).
Proof.
  intros Hmax. destruct before as [|b before].
  - cbn. f_equal. apply argmax_from_stay. apply Hmax.
  - cbn [app argmax List.length]. f_equal.
    destruct Hmax as [Hb Ha].
    apply (argmax_from_reach before (0%nat, b) 1%nat pm after).
    + apply Hb. left. reflexivity.
    + split; [|exact Ha]. intros z Hz. apply Hb. right. exact Hz.
Qed.

(** Every non-empty sequence has a first point of maximum amplitude. *)
Lemma first_maximum_exists (pts : list EnvelopePoint) :
  pts <> [] ->
  exists before pm after, pts = before ++ pm :: after /\ first_maximum before pm after.
Proof.
  induction pts as [|p rest IH]; intros Hne; [contradiction Hne; reflexivity|].
  destruct rest as [|r rest'].
  - exists [], p, []. split; [reflexivity|]. split; intros q [].
  - destruct IH as (before & pm & after & Heq & Hb & Ha); [discriminate|].
    destruct (Qlt_le_dec (oscillationAmplitude p) (oscillationAmplitude pm)) as [Hlt|Hle].
    + exists (p :: before), pm, after. rewrite Heq. split; [reflexivity|].
      split; [|exact Ha].
      intros q [<-|Hq]; [exact Hlt|apply Hb; exact Hq].
    + exists [], p, (r :: rest'). split; [reflexivity|].
      split; [intros q []|].
      intros q Hq. rewrite Heq in Hq. apply in_app_or in Hq.
      destruct Hq as [Hq|[<-|Hq]].
      * apply Qlt_le_weak. apply (Qlt_le_trans _ _ _ (Hb q Hq) Hle).
      * exact Hle.
      * apply (Qle_trans _ _ _ (Ha q Hq) Hle).
Qed.

Lemma sides_first_maximum (before : list EnvelopePoint) (pm : EnvelopePoint)
      (after : list EnvelopePoint) :
  first_maximum before pm after ->
  high_side (before ++ pm :: after) = before ++ [pm] /\
  low_side (before ++ pm :: after) = pm :: after.
Proof.
  intros Hmax. unfold high_side, low_side.
  rewrite (argmax_first_maximum _ _ _ Hmax). split.
  - change (pm :: after) with ([pm] ++ after). rewrite app_assoc.
    replace (S (List.length before)) with (List.length (before ++ [pm]) + 0)%nat
      by (rewrite length_app; cbn; lia).
    rewrite firstn_app_2. cbn. rewrite app_nil_r. reflexivity.
  - replace (List.length before) with (List.length before + 0)%nat by lia.
    rewrite skipn_app. rewrite Nat.add_0_r, skipn_all.
    replace (List.length before - List.length before)%nat with 0%nat by lia.
    reflexivity.
Qed.

Lemma deflation_split (l1 : list EnvelopePoint) (x : EnvelopePoint) (l2 : list EnvelopePoint) :
  deflation (l1 ++ x :: l2) ->
  (forall y, In y l1 -> cuffPressure x <= cuffPressure y) /\
  (forall z, In z l2 -> cuffPressure z <= cuffPressure x).
Proof.
  induction l1 as [|y l1 IH]; cbn.
  - intros [H _]. split; [intros y []|exact H].
  - intros [Hy Hrest]. destruct (IH Hrest) as [H1 H2]. split; [|exact H2].
    intros z [<-|Hz]; [|apply H1; exact Hz].
    apply Hy. apply in_or_app. right. left. reflexivity.
Qed.

Lemma maxAmplitude_first_maximum (before : list EnvelopePoint) (pm : EnvelopePoint)
      (after : list EnvelopePoint) :
  first_maximum before pm after ->
  maxAmplitude (before ++ pm :: after) = oscillationAmplitude pm /\
  estimated_MAP (before ++ pm :: after) = Some (cuffPressure pm).
Proof.
  intros Hmax. unfold maxAmplitude, estimated_MAP.
  rewrite (argmax_first_maximum _ _ _ Hmax). split; reflexivity.
Qed.

Lemma sides_incl (pts : list EnvelopePoint) :
  incl (high_side pts) pts /\ incl (low_side pts) pts.
Proof.
  unfold high_side, low_side. destruct (argmax pts) as [[imax pm]|].
  - split; intros q Hq.
    + rewrite <- (firstn_skipn (S imax) pts). apply in_or_app. left. exact Hq.
    + rewrite <- (firstn_skipn imax pts). apply in_or_app. right. exact Hq.
  - split; intros q [].
Qed.

(** What a numeric result tells about the input. *)
Lemma estimate_Estimated (cfg : MeasurementConfig) (pts : list EnvelopePoint)
      (r : MeasurementResult) :
  estimate cfg pts = Estimated r ->
  (minNbrPeaks cfg <= List.length pts)%nat /\
  exists MAP ps pd b1 b2 a1 a2,
    estimated_MAP pts = Some MAP /\
    rev (high_side pts) = b1 ++ ps :: b2 /\
    low_side pts = a1 ++ pd :: a2 /\
    oscillationAmplitude ps <= ratioSBP cfg * maxAmplitude pts /\
    oscillationAmplitude pd <= ratioDBP cfg * maxAmplitude pts /\
    no_crossing (ratioSBP cfg) pts b1 /\
    no_crossing (ratioDBP cfg) pts a1 /\
    r = {| map := MAP; sbp := cuffPressure ps; dbp := cuffPressure pd |}.
Proof.
  unfold estimate. destruct (Nat.ltb_spec (List.length pts) (minNbrPeaks cfg)) as [|Hlen];
    [discriminate|].
  destruct (estimated_MAP pts) as [MAP|] eqn:Hmap; [|discriminate].
  destruct (find _ (rev (high_side pts))) as [ps|] eqn:Hs; [|discriminate].
  destruct (find _ (low_side pts)) as [pd|] eqn:Hd; [|discriminate].
  intros H. injection H as <-. split; [exact Hlen|].
  destruct (find_split _ _ _ Hs) as (b1 & b2 & Eb & Hps & Hb1).
  destruct (find_split _ _ _ Hd) as (a1 & a2 & Ea & Hpd & Ha1).
  exists MAP, ps, pd, b1, b2, a1, a2.
  repeat split; try assumption.
  - apply at_or_below_true. exact Hps.
  - apply at_or_below_true. exact Hpd.
  - intros q Hq. apply at_or_below_false. apply Hb1. exact Hq.
  - intros q Hq. apply at_or_below_false. apply Ha1. exact Hq.
Qed.

(** C1. For every envelope with at least [minNbrPeaks] points (and
    [minNbrPeaks >= 1]) there is a first point of maximum amplitude: every
    point before it has a strictly smaller amplitude and no point after it a
    larger one. MAP is the cuff pressure of that point, also in every
    numeric result of the estimation; and on an envelope in the order of a
    deflation no point of the same amplitude has a higher pressure. *)
Theorem MAP_is_first_maximum (cfg : MeasurementConfig) (pts : list EnvelopePoint) :
  (1 <= minNbrPeaks cfg)%nat ->
  (minNbrPeaks cfg <= List.length pts)%nat ->
  exists before pm after,
    pts = before ++ pm :: after /\
    first_maximum before pm after /\
    maxAmplitude pts = oscillationAmplitude pm /\
    estimated_MAP pts = Some (cuffPressure pm) /\
    (forall r, estimate cfg pts = Estimated r -> map r = cuffPressure pm) /\
    (deflation pts ->
     forall q, In q pts -> oscillationAmplitude q == oscillationAmplitude pm ->
               cuffPressure q <= cuffPressure pm).
Proof.
  intros Hmin Hlen.
  assert (Hne : pts <> []) by (intros ->; cbn in Hlen; lia).
  destruct (first_maximum_exists pts Hne) as (before & pm & after & Heq & Hmax).
  exists before, pm, after.
  destruct (maxAmplitude_first_maximum _ _ _ Hmax) as [Hamp Hmap].
  rewrite <- Heq in Hamp, Hmap.
  split; [exact Heq|]. split; [exact Hmax|].
  split; [exact Hamp|]. split; [exact Hmap|].
  split.
  - intros r Hr. destruct (estimate_Estimated _ _ _ Hr)
      as (_ & MAP & ps & pd & b1 & b2 & a1 & a2 & Hmap' & _ & _ & _ & _ & _ & _ & ->).
    rewrite Hmap in Hmap'. injection Hmap' as <-. reflexivity.
  - intros Hdefl q Hq Hampq. rewrite Heq in Hq, Hdefl.
    destruct (deflation_split _ _ _ Hdefl) as [_ Hafter].
    destruct Hmax as [Hb _].
    apply in_app_or in Hq. destruct Hq as [Hq|[<-|Hq]].
    + exfalso. pose proof (Hb q Hq) as Hlt. rewrite Hampq in Hlt.
      exact (Qlt_irrefl _ Hlt).
    + apply Qle_refl.
    + apply Hafter. exact Hq.
Qed.

(** C2. On an envelope with at least [minNbrPeaks] points, [pm] being its
    first point of maximum amplitude: when [ps] is the first point met from
    [pm] upward in pressure (back through the points up to [pm], [pm]
    included) whose amplitude is at or below [ratioSBP] times the maximum
    amplitude, and [pd] the first point met from [pm] downward (on through
    the points from [pm], [pm] included) whose amplitude is at or below
    [ratioDBP] times the maximum amplitude, the estimation returns the cuff
    pressures of [pm], [ps] and [pd] as MAP, SBP and DBP; on an envelope in
    the order of a deflation SBP is at or above MAP and DBP at or below. *)
Theorem SBP_DBP_first_crossings (cfg : MeasurementConfig)
        (before : list EnvelopePoint) (pm : EnvelopePoint) (after : list EnvelopePoint)
        (b1 : list EnvelopePoint) (ps : EnvelopePoint) (b2 : list EnvelopePoint)
        (a1 : list EnvelopePoint) (pd : EnvelopePoint) (a2 : list EnvelopePoint) :
  (minNbrPeaks cfg <= List.length (before ++ pm :: after))%nat ->
  first_maximum before pm after ->
  before ++ [pm] = b1 ++ ps :: b2 ->
  oscillationAmplitude ps <= ratioSBP cfg * oscillationAmplitude pm ->
  (forall q, In q b2 -> ratioSBP cfg * oscillationAmplitude pm < oscillationAmplitude q) ->
  pm :: after = a1 ++ pd :: a2 ->
  oscillationAmplitude pd <= ratioDBP cfg * oscillationAmplitude pm ->
  (forall q, In q a1 -> ratioDBP cfg * oscillationAmplitude pm < oscillationAmplitude q) ->
  estimate cfg (before ++ pm :: after) =
    Estimated {| map := cuffPressure pm; sbp := cuffPressure ps; dbp := cuffPressure pd |} /\
  (deflation (before ++ pm :: after) ->
   cuffPressure pd <= cuffPressure pm /\ cuffPressure pm <= cuffPressure ps).
Proof.
  intros Hlen Hmax Hhigh Hps Hb2 Hlow Hpd Ha1.
  destruct (sides_first_maximum _ _ _ Hmax) as [Hhs Hls].
  destruct (maxAmplitude_first_maximum _ _ _ Hmax) as [Hamp Hmap].
  split.
  - unfold estimate.
    destruct (Nat.ltb_spec (List.length (before ++ pm :: after)) (minNbrPeaks cfg)); [lia|].
    rewrite Hmap, Hamp, Hhs, Hls, Hhigh, Hlow.
    rewrite rev_app_distr. cbn [rev]. rewrite <- app_assoc. cbn [app].
    rewrite find_first.
    + rewrite find_first; [reflexivity| |apply at_or_below_true; exact Hpd].
      intros y Hy. apply at_or_below_false. apply Ha1. exact Hy.
    + intros y Hy. apply at_or_below_false. apply Hb2. apply in_rev. exact Hy.
    + apply at_or_below_true. exact Hps.
  - intros Hdefl. destruct (deflation_split _ _ _ Hdefl) as [Hbefore Hafter].
    split.
    + assert (Hin : In pd (pm :: after)) by (rewrite Hlow; apply in_or_app; right; left; reflexivity).
      destruct Hin as [<-|Hin]; [apply Qle_refl|apply Hafter; exact Hin].
    + assert (Hin : In ps (before ++ [pm]))
        by (rewrite Hhigh; apply in_or_app; right; left; reflexivity).
      apply in_app_or in Hin. destruct Hin as [Hin|[<-|[]]];
        [apply Hbefore; exact Hin|apply Qle_refl].
Qed.

(** C3. The estimation fails exactly when its input is deficient. It fails
    with [InsufficientData] exactly when the envelope has fewer than
    [minNbrPeaks] points (so with [minNbrPeaks = 5] on every sequence of
    three points). It fails with [RatioCrossingNotFound] exactly when the
    envelope has enough points but no point at or above MAP, or no point at
    or below MAP, with an amplitude at or below the ratio target. In every
    other case it returns numbers, which are cuff pressures of points of the
    input that reach the targets, never values in between. *)
Theorem estimation_failures (cfg : MeasurementConfig) (pts : list EnvelopePoint) :
  (1 <= minNbrPeaks cfg)%nat ->
  ((List.length pts < minNbrPeaks cfg)%nat <-> estimate cfg pts = Failed InsufficientData) /\
  (minNbrPeaks cfg = 5%nat -> List.length pts = 3%nat ->
   estimate cfg pts = Failed InsufficientData) /\
  (((minNbrPeaks cfg <= List.length pts)%nat /\
    (no_crossing (ratioSBP cfg) pts (high_side pts) \/
     no_crossing (ratioDBP cfg) pts (low_side pts)))
   <-> estimate cfg pts = Failed RatioCrossingNotFound) /\
  (forall r, estimate cfg pts = Estimated r ->
     (minNbrPeaks cfg <= List.length pts)%nat /\
     exists ps pd,
       In ps (high_side pts) /\ In pd (low_side pts) /\
       In ps pts /\ In pd pts /\
       oscillationAmplitude ps <= ratioSBP cfg * maxAmplitude pts /\
       oscillationAmplitude pd <= ratioDBP cfg * maxAmplitude pts /\
       estimated_MAP pts = Some (map r) /\
       sbp r = cuffPressure ps /\ dbp r = cuffPressure pd).
Proof.
  intros Hmin.
  assert (Hmap : (minNbrPeaks cfg <= List.length pts)%nat ->
                 exists MAP, estimated_MAP pts = Some MAP).
  { intros Hlen. destruct pts as [|p rest]; [cbn in Hlen; lia|].
    unfold estimated_MAP. cbn. destruct (argmax_from _ _ _). eexists. reflexivity. }
  assert (Hinsufficient :
            (List.length pts < minNbrPeaks cfg)%nat <-> estimate cfg pts = Failed InsufficientData).
  { unfold estimate.
    destruct (Nat.ltb_spec (List.length pts) (minNbrPeaks cfg)) as [Hlt|Hlen].
    - split; [reflexivity|intros _; exact Hlt].
    - destruct (Hmap Hlen) as [MAP ->].
      split; [lia|].
      destruct (find _ _); [destruct (find _ _)|]; discriminate. }
  split; [exact Hinsufficient|].
  split; [intros H5 H3; apply Hinsufficient; lia|].
  split; [split|].
  - intros [Hlen Hno]. unfold estimate.
    destruct (Nat.ltb_spec (List.length pts) (minNbrPeaks cfg)) as [Hlt|_]; [lia|].
    destruct (Hmap Hlen) as [MAP ->].
    destruct Hno as [Hno|Hno].
    + rewrite (find_nothing _ (rev (high_side pts))); [reflexivity|].
      intros y Hy. apply at_or_below_false. apply Hno. apply in_rev. exact Hy.
    + rewrite (find_nothing _ (low_side pts)).
      * destruct (find _ _); reflexivity.
      * intros y Hy. apply at_or_below_false. apply Hno. exact Hy.
  - unfold estimate.
    destruct (Nat.ltb_spec (List.length pts) (minNbrPeaks cfg)) as [Hlt|Hlen]; [discriminate|].
    destruct (Hmap Hlen) as [MAP ->].
    intros H. split; [exact Hlen|].
    destruct (find _ (rev (high_side pts))) as [ps|] eqn:Hs.
    + destruct (find _ (low_side pts)) as [pd|] eqn:Hd; [discriminate H|].
      right. intros q Hq. apply at_or_below_false. exact (find_none _ _ Hd q Hq).
    + left. intros q Hq. apply at_or_below_false.
      apply (find_none _ _ Hs q). apply in_rev in Hq. exact Hq.
  - intros r Hr.
    destruct (estimate_Estimated _ _ _ Hr)
      as (Hlen & MAP & ps & pd & b1 & b2 & a1 & a2 & HMAP & Hb & Ha & Hps & Hpd & _ & _ & ->).
    split; [exact Hlen|]. exists ps, pd.
    destruct (sides_incl pts) as [Hhi Hlo].
    assert (Hin_s : In ps (high_side pts)).
    { apply in_rev. rewrite Hb. apply in_or_app. right. left. reflexivity. }
    assert (Hin_d : In pd (low_side pts)).
    { rewrite Ha. apply in_or_app. right. left. reflexivity. }
    repeat split; auto.
Qed.

Example scenario_estimate :
  estimate scenario_config scenario_envelope = Estimated {| map := 110; sbp := 160; dbp := 85 |}.
Proof. reflexivity. Qed.

(** ** The measurement state machine (section 4.4) *)

(** Modelled from the spec: Phase of section 3. *)
Inductive Phase : Type := Idle | WaitInflate | Deflating | WaitEmptyCuff | Result.

Definition Phase_eq_dec (a b : Phase) : {a = b} + {a <> b}.
Proof. decide equality. Defined.

(** Modelled from the spec: what drives the machine, the user actions of
    section 5 and one filtered pair per iteration of the acquisition loop. *)
Inductive Event : Type :=
| StartMeasurement
| CancelMeasurement
| Reset
| Sample (lowPass highPass : Q).

(** Modelled from the spec: the notifications of section 6 the machine
    gives rise to. *)
Inductive Notification : Type :=
| OnPhaseChanged (p : Phase)
| OnResult (e : Estimate).

Section Machine.

(** The oscillation detector of section 4.3, which the specification leaves
    open: its state, the state after a reset, and what one filtered pair
    (high-pass value, low-pass value) does to it, a confirmed peak yielding
    an envelope point. *)
Variable Detector : Type.
Variable detector_reset : Detector.
Variable detect : Detector -> Q -> Q -> Detector * option EnvelopePoint.

(** The "near-empty" threshold that ends the deflation and the threshold
    ("~0") under which the cuff counts as empty. *)
Variable nearEmptyThreshold : Q.
Variable emptyThreshold : Q.

Record Machine : Type := {
  phase : Phase;
  envelope : list EnvelopePoint;
  detector : Detector;
  result : option Estimate
}.

(** Modelled from the spec: the measurement state machine, the transitions
    of section 4.4 (its implementation, in the engine, is not among the
    sources). A user action that the current phase has no transition for is
    ignored. A sample feeds
    the detector; its low-pass value alone is compared with the thresholds.
    Entering [Deflating] clears the envelope; in [Deflating] a confirmed
    peak appends a point; leaving [WaitEmptyCuff] runs the estimation, whose
    outcome, numbers or failure, is reported on entering [Result]. Every
    transition gives one phase-change notification. *)
Definition step (cfg : MeasurementConfig) (m : Machine) (e : Event)
  : Machine * list Notification :=
  match e with
  | StartMeasurement =>
      match phase m with
      | Idle =>
          ({| phase := WaitInflate; envelope := envelope m; detector := detector m;
              result := result m |},
           [OnPhaseChanged WaitInflate])
      | _ => (m, [])
      end
  | CancelMeasurement =>
      match phase m with
      | WaitInflate | Deflating | WaitEmptyCuff =>
          ({| phase := Idle; envelope := []; detector := detector_reset;
              result := result m |},
           [OnPhaseChanged Idle])
      | _ => (m, [])
      end
  | Reset =>
      match phase m with
      | Result =>
          ({| phase := Idle; envelope := []; detector := detector_reset;
              result := result m |},
           [OnPhaseChanged Idle])
      | _ => (m, [])
      end
  | Sample lowPass highPass =>
      let (d, peak) := detect (detector m) highPass lowPass in
      match phase m with
      | Idle | Result =>
          ({| phase := phase m; envelope := envelope m; detector := d; result := result m |}, [])
      | WaitInflate =>
          if Qle_bool (pumpUpTarget cfg) lowPass
          then ({| phase := Deflating; envelope := []; detector := d; result := result m |},
                [OnPhaseChanged Deflating])
          else ({| phase := WaitInflate; envelope := envelope m; detector := d;
                   result := result m |}, [])
      | Deflating =>
          let env := match peak with
                     | Some pt => envelope m ++ [pt]
                     | None => envelope m
                     end in
          if Qltb lowPass nearEmptyThreshold
          then ({| phase := WaitEmptyCuff; envelope := env; detector := d; result := result m |},
                [OnPhaseChanged WaitEmptyCuff])
          else ({| phase := Deflating; envelope := env; detector := d; result := result m |}, [])
      | WaitEmptyCuff =>
          if Qle_bool lowPass emptyThreshold
          then let est := estimate cfg (envelope m) in
               ({| phase := Result; envelope := []; detector := d; result := Some est |},
                [OnPhaseChanged Result; OnResult est])
          else ({| phase := WaitEmptyCuff; envelope := envelope m; detector := d;
                   result := result m |}, [])
      end
  end.

(** The machine fed a sequence of events, with all it notified. *)
Fixpoint run (cfg : MeasurementConfig) (m : Machine) (es : list Event)
  : Machine * list Notification :=
  match es with
  | [] => (m, [])
  | e :: es' =>
      let (m1, n1) := step cfg m e in
      let (m2, n2) := run cfg m1 es' in
      (m2, n1 ++ n2)
  end.

(** The samples of a trend, a list of (low-pass, high-pass) pairs. *)
Definition samples (trend : list (Q * Q)) : list Event :=
  List.map (fun s => Sample (fst s) (snd s)) trend.

(** The phases a list of notifications announces. *)
Fixpoint phase_changes (ns : list Notification) : list Phase :=
  match ns with
  | [] => []
  | OnPhaseChanged p :: ns' => p :: phase_changes ns'
  | OnResult _ :: ns' => phase_changes ns'
  end.

(** How often the machine entered [Deflating]. *)
Definition entries_to_Deflating (ns : list Notification) : nat :=
  count_occ Phase_eq_dec (phase_changes ns) Deflating.

(** An event without its high-pass value. *)
Definition without_highPass (e : Event) : Event :=
  match e with
  | Sample lowPass _ => Sample lowPass 0
  | _ => e
  end.

(** ** Properties of the state machine *)

Lemma run_app (cfg : MeasurementConfig) (es1 es2 : list Event) : forall m,
  run cfg m (es1 ++ es2) =
    (fst (run cfg (fst (run cfg m es1)) es2),
     snd (run cfg m es1) ++ snd (run cfg (fst (run cfg m es1)) es2)).
Proof.
  induction es1 as [|e es1 IH]; intros m; cbn [app run].
  - cbn. destruct (run cfg m es2); reflexivity.
  - destruct (step cfg m e) as [m1 n1]. rewrite IH.
    destruct (run cfg m1 es1) as [m2 n2]. cbn.
    rewrite app_assoc. reflexivity.
Qed.

Lemma phase_changes_app (n1 n2 : list Notification) :
  phase_changes (n1 ++ n2) = phase_changes n1 ++ phase_changes n2.
Proof.
  induction n1 as [|[p|e] n1 IH]; cbn; [reflexivity| |exact IH].
  rewrite IH. reflexivity.
Qed.

Lemma entries_app (n1 n2 : list Notification) :
  entries_to_Deflating (n1 ++ n2) = (entries_to_Deflating n1 + entries_to_Deflating n2)%nat.
Proof.
  unfold entries_to_Deflating. rewrite phase_changes_app. apply count_occ_app.
Qed.

(** The next phase and the phase changes notified are a function of the
    phase, the user action and the low-pass value. *)
Lemma step_phase_lowPass (cfg : MeasurementConfig) (m1 m2 : Machine) (e1 e2 : Event) :
  phase m1 = phase m2 ->
  without_highPass e1 = without_highPass e2 ->
  phase (fst (step cfg m1 e1)) = phase (fst (step cfg m2 e2)) /\
  phase_changes (snd (step cfg m1 e1)) = phase_changes (snd (step cfg m2 e2)).
Proof.
  intros Hph He.
  destruct e1 as [| | |lp1 hp1], e2 as [| | |lp2 hp2]; try discriminate He.
  - cbn. destruct (phase m1) eqn:E1, (phase m2) eqn:E2; try discriminate Hph;
      cbn; rewrite ?E1, ?E2; auto.
  - cbn. destruct (phase m1) eqn:E1, (phase m2) eqn:E2; try discriminate Hph;
      cbn; rewrite ?E1, ?E2; auto.
  - cbn. destruct (phase m1) eqn:E1, (phase m2) eqn:E2; try discriminate Hph;
      cbn; rewrite ?E1, ?E2; auto.
  - injection He as <-. cbn.
    destruct (detect (detector m1) hp1 lp1) as [d1 k1].
    destruct (detect (detector m2) hp2 lp1) as [d2 k2].
    destruct (phase m1) eqn:E1, (phase m2) eqn:E2; try discriminate Hph; cbn; auto.
    + destruct (Qle_bool (pumpUpTarget cfg) lp1); cbn; auto.
    + destruct (Qltb lp1 nearEmptyThreshold); cbn; auto.
    + destruct (Qle_bool lp1 emptyThreshold); cbn; auto.
Qed.

Lemma run_phase_lowPass (cfg : MeasurementConfig) (es1 : list Event) :
  forall (es2 : list Event) (m1 m2 : Machine),
  phase m1 = phase m2 ->
  List.map without_highPass es1 = List.map without_highPass es2 ->
  phase (fst (run cfg m1 es1)) = phase (fst (run cfg m2 es2)) /\
  phase_changes (snd (run cfg m1 es1)) = phase_changes (snd (run cfg m2 es2)).
Proof.
  induction es1 as [|e1 es1 IH]; intros [|e2 es2] m1 m2 Hph Hes; try discriminate Hes.
  - cbn. auto.
  - cbn [List.map] in Hes. injection Hes as He Hes.
    destruct (step_phase_lowPass cfg m1 m2 e1 e2 Hph He) as [Hp Hn].
    cbn [run].
    destruct (step cfg m1 e1) as [m1' n1]. destruct (step cfg m2 e2) as [m2' n2].
    cbn [fst snd] in Hp, Hn.
    destruct (IH es2 m1' m2' Hp Hes) as [Hp' Hn'].
    destruct (run cfg m1' es1) as [m1'' n1']. destruct (run cfg m2' es2) as [m2'' n2'].
    cbn [fst snd] in *. split; [exact Hp'|].
    rewrite !phase_changes_app, Hn, Hn'. reflexivity.
Qed.

(** Below the target the machine waits, and notifies nothing. *)
Lemma run_waiting (cfg : MeasurementConfig) (trend : list (Q * Q)) : forall m,
  phase m = WaitInflate ->
  (forall s, In s trend -> fst s < pumpUpTarget cfg) ->
  phase (fst (run cfg m (samples trend))) = WaitInflate /\
  snd (run cfg m (samples trend)) = [].
Proof.
  induction trend as [|[lp hp] trend IH]; intros m Hph Hlow; cbn [samples List.map run].
  - cbn. auto.
  - cbn [fst snd step]. destruct (detect (detector m) hp lp) as [d peak]. rewrite Hph.
    assert (Hcmp : Qle_bool (pumpUpTarget cfg) lp = false).
    { pose proof (Hlow (lp, hp) (or_introl eq_refl)) as H. cbn [fst] in H.
      apply Qltb_true in H. unfold Qltb in H. apply negb_true_iff in H. exact H. }
    rewrite Hcmp.
    match goal with
    | |- context [run cfg ?m' _] =>
        destruct (IH m' eq_refl (fun s Hs => Hlow s (or_intror Hs))) as [Hp Hn];
        fold (samples trend);
        destruct (run cfg m' (samples trend)) as [m2 n2]
    end.
    cbn [fst snd] in *. rewrite Hn. auto.
Qed.

(** Once deflating, samples alone never lead into [Deflating] again. *)
Definition past_inflation (p : Phase) : Prop :=
  p = Deflating \/ p = WaitEmptyCuff \/ p = Result.

Lemma run_past_inflation (cfg : MeasurementConfig) (trend : list (Q * Q)) : forall m,
  past_inflation (phase m) ->
  past_inflation (phase (fst (run cfg m (samples trend)))) /\
  entries_to_Deflating (snd (run cfg m (samples trend))) = 0%nat.
Proof.
  induction trend as [|[lp hp] trend IH]; intros m Hph; cbn [samples List.map run].
  - cbn. auto.
  - fold (samples trend). cbn [fst snd].
    assert (Hstep : past_inflation (phase (fst (step cfg m (Sample lp hp)))) /\
                    entries_to_Deflating (snd (step cfg m (Sample lp hp))) = 0%nat).
    { cbn [step]. destruct (detect (detector m) hp lp) as [d peak].
      unfold past_inflation in *.
      destruct Hph as [->| [->| ->]]; cbn.
      - destruct (Qltb lp nearEmptyThreshold); cbn; auto.
      - destruct (Qle_bool lp emptyThreshold); cbn; auto.
      - auto. }
    destruct (step cfg m (Sample lp hp)) as [m1 n1]. cbn [fst snd] in Hstep.
    destruct Hstep as [Hp1 Hn1].
    destruct (IH m1 Hp1) as [Hp2 Hn2].
    destruct (run cfg m1 (samples trend)) as [m2 n2]. cbn [fst snd] in *.
    split; [exact Hp2|]. rewrite entries_app, Hn1, Hn2. reflexivity.
Qed.

Lemma run_reaching (cfg : MeasurementConfig) (before : list (Q * Q)) (lp hp : Q)
      (after : list (Q * Q)) (m : Machine) :
  phase m = WaitInflate ->
  (forall s, In s before -> fst s < pumpUpTarget cfg) ->
  pumpUpTarget cfg <= lp ->
  phase (fst (run cfg m (samples (before ++ [(lp, hp)])))) = Deflating /\
  entries_to_Deflating (snd (run cfg m (samples (before ++ (lp, hp) :: after)))) = 1%nat.
Proof.
  intros Hph Hlow Hreach.
  destruct (run_waiting cfg before m Hph Hlow) as [Hp Hn].
  assert (Hstep : forall m', phase m' = WaitInflate ->
            phase (fst (step cfg m' (Sample lp hp))) = Deflating /\
            snd (step cfg m' (Sample lp hp)) = [OnPhaseChanged Deflating]).
  { intros m' Hm'. cbn [step]. destruct (detect (detector m') hp lp) as [d peak].
    rewrite Hm'. apply Qle_bool_iff in Hreach. rewrite Hreach. cbn. auto. }
  unfold samples. rewrite !map_app. fold (samples before). cbn [List.map fst snd].
  fold (samples after). rewrite !run_app. cbn [fst snd].
  destruct (Hstep _ Hp) as [Hp1 Hn1].
  split.
  - cbn [run]. destruct (step cfg _ (Sample lp hp)) as [m1 n1]. exact Hp1.
  - rewrite Hn. cbn [app run].
    destruct (step cfg _ (Sample lp hp)) as [m1 n1]. cbn [fst snd] in Hp1, Hn1.
    destruct (run_past_inflation cfg after m1 (or_introl Hp1)) as [_ Hn2].
    destruct (run cfg m1 (samples after)) as [m2 n2]. cbn [fst snd] in *.
    rewrite entries_app, Hn1, Hn2. reflexivity.
Qed.

(** C5. From [Idle], [startMeasurement()] takes the machine to
    [WaitInflate]. Fed any low-pass trend that stays below [pumpUpTarget],
    it is in [WaitInflate] after every sample and has never entered
    [Deflating]. Fed a trend that reaches [pumpUpTarget], it is in
    [Deflating] right after the first sample that reaches it, and whatever
    samples follow it has entered [Deflating] exactly once. The phase
    reached and the phase changes notified are the same for any two runs
    that start in the same phase and get the same user actions and the same
    low-pass values, whatever the high-pass values and the detector. *)
Theorem inflation_driven_by_trend (cfg : MeasurementConfig) (m : Machine) :
  phase m = Idle ->
  (phase (fst (step cfg m StartMeasurement)) = WaitInflate /\
   snd (step cfg m StartMeasurement) = [OnPhaseChanged WaitInflate]) /\
  (forall trend,
     (forall s, In s trend -> fst s < pumpUpTarget cfg) ->
     phase (fst (run cfg m (StartMeasurement :: samples trend))) = WaitInflate /\
     entries_to_Deflating (snd (run cfg m (StartMeasurement :: samples trend))) = 0%nat) /\
  (forall before lp hp after,
     (forall s, In s before -> fst s < pumpUpTarget cfg) ->
     pumpUpTarget cfg <= lp ->
     phase (fst (run cfg m (StartMeasurement :: samples (before ++ [(lp, hp)])))) = Deflating /\
     entries_to_Deflating
       (snd (run cfg m (StartMeasurement :: samples (before ++ (lp, hp) :: after)))) = 1%nat) /\
  (forall m1 m2 es1 es2,
     phase m1 = phase m2 ->
     List.map without_highPass es1 = List.map without_highPass es2 ->
     phase (fst (run cfg m1 es1)) = phase (fst (run cfg m2 es2)) /\
     phase_changes (snd (run cfg m1 es1)) = phase_changes (snd (run cfg m2 es2))).
Proof.
  intros Hidle.
  assert (Hstart : step cfg m StartMeasurement =
            ({| phase := WaitInflate; envelope := envelope m; detector := detector m;
                result := result m |}, [OnPhaseChanged WaitInflate])).
  { cbn [step]. rewrite Hidle. reflexivity. }
  split; [rewrite Hstart; split; reflexivity|].
  split; [|split].
  - intros trend Hlow. cbn [run]. rewrite Hstart.
    match goal with
    | |- context [run cfg ?m' _] =>
        destruct (run_waiting cfg trend m' eq_refl Hlow) as [Hp Hn];
        destruct (run cfg m' (samples trend)) as [m2 n2]
    end.
    cbn [fst snd] in *. rewrite Hn. split; [exact Hp|reflexivity].
  - intros before lp hp after Hlow Hreach. cbn [run]. rewrite Hstart.
    match goal with
    | |- context [run cfg ?m' (samples (before ++ [(lp, hp)]))] =>
        destruct (run_reaching cfg before lp hp after m' eq_refl Hlow Hreach) as [Hp Hn];
        destruct (run cfg m' (samples (before ++ [(lp, hp)]))) as [m2 n2];
        destruct (run cfg m' (samples (before ++ (lp, hp) :: after))) as [m3 n3]
    end.
    cbn [fst snd] in *. split; [exact Hp|].
    rewrite entries_app, Hn. reflexivity.
  - intros m1 m2 es1 es2. apply run_phase_lowPass.
Qed.

End Machine.

Arguments Build_Machine {Detector} phase envelope detector result.
Arguments phase {Detector} m.
Arguments envelope {Detector} m.
Arguments detector {Detector} m.
Arguments result {Detector} m.
Arguments step {Detector} detector_reset detect nearEmptyThreshold emptyThreshold cfg m e.
Arguments run {Detector} detector_reset detect nearEmptyThreshold emptyThreshold cfg m es.

End Engine.

(* ================================================================== *)
(** * The theorems at concrete inputs                                  *)
(* ================================================================== *)

(** ** A simulated acquisition device *)

Module SimulatedDevice.

Import ComediHandler.
Local Open Scope Z_scope.

(** [double] as the rationals. *)
Definition double : Type := Q.

(** The device: the bytes waiting in the buffer of the driver. The
    acquisition is over, so a read on the empty buffer reports the end of
    the stream. *)
Record Dev : Type := { fifo : list Byte.byte }.

Definition sim_range : comedi_range double :=
  {| min := (-1325 # 1000)%Q; max := (1325 # 1000)%Q; unit_ := 0 |}.

Definition sim_open (path : string) (d : Dev) : bool * Dev := (true, d).
Definition sim_oor (b : Z) (d : Dev) : Dev := d.
Definition sim_maxdata (subdev chan : Z) (d : Dev) : Z * Dev := (0xffffff, d).
Definition sim_get_range (subdev chan rng : Z) (d : Dev) : comedi_range double * Dev :=
  (sim_range, d).
Definition sim_n_channels (subdev : Z) (d : Dev) : Z * Dev := (2, d).

Definition sim_cmd_generic_timed (subdev n period : Z) (d : Dev) : (Z * comedi_cmd) * Dev :=
  ((0, {| scan_begin_src := TRIG_TIMER; scan_begin_arg := period;
          convert_src := 0x2; convert_arg := 0;
          stop_src := 0x20; stop_arg := 2;
          cmd_chanlist := []; cmd_chanlist_len := n |}), d).

Definition sim_command_test (cmd : comedi_cmd) (d : Dev) : (Z * comedi_cmd) * Dev :=
  ((0, cmd), d).
Definition sim_command (cmd : comedi_cmd) (d : Dev) : Z * Dev := (0, d).
Definition sim_subdevice_flags (subdev : Z) (d : Dev) : Z * Dev := (SDF_LSAMPL, d).
Definition sim_buffer_contents (subdev : Z) (d : Dev) : Z * Dev :=
  (Z.of_nat (List.length (fifo d)), d).
Definition sim_fileno (d : Dev) : Z := 3.

Definition sim_to_phys (data : Z) (rng : comedi_range double) (maxdata : Z) : double :=
  (min rng + (max rng - min rng) * inject_Z data / inject_Z maxdata)%Q.

Definition sim_read (fd count : Z) (d : Dev) : (Z * list Byte.byte) * Dev :=
  let n := Z.to_nat count in
  let got := firstn n (fifo d) in
  ((Z.of_nat (List.length got), got ++ repeat Byte.x00 (n - List.length got)),
   {| fifo := skipn n (fifo d) |}).

(** The storage the handler is constructed in. *)
Definition raw_storage : Handler double :=
  {| adChannel := 77; maxdata := 0; crange := sim_range; numChannels := 0; chanlist := [];
     comediCommand := {| scan_begin_src := 0; scan_begin_arg := 0; convert_src := 0;
                         convert_arg := 0; stop_src := 0; stop_arg := 0;
                         cmd_chanlist := []; cmd_chanlist_len := 0 |};
     sampling_rate := 0%Q; sigmaBoard := false; readSize := 0 |}.

(** One scan of two channels is waiting: 0x00012345 and 0x00000007. *)
Definition one_scan : list Byte.byte :=
  [Byte.x45; Byte.x23; Byte.x01; Byte.x00; Byte.x07; Byte.x00; Byte.x00; Byte.x00].

Definition boot (bytes : list Byte.byte) : State double Dev :=
  {| this := raw_storage; device := {| fifo := bytes |}; plog := []; syscalls := [] |}.

(** The constructor with [COMEDI_NUM_CHANNEL = 2] at 1 kHz. *)
Definition construct : Proc (State double Dev) unit :=
  ComediHandler_ctor "/dev/comedi0" 0 0 2 1000000
    1000000000%Q Qdiv inject_Z
    sim_open sim_oor sim_maxdata sim_get_range sim_n_channels sim_cmd_generic_timed
    sim_command_test sim_command sim_subdevice_flags.

(** The handler once constructed, with one scan waiting and with none. *)
Definition ready : State double Dev := final_state (construct (boot one_scan)).
Definition drained : State double Dev := final_state (construct (boot [])).

Definition some_calls : list Op :=
  [OpGetBufferContents; OpGetVoltageSample; OpGetSamplingRate; OpGetRawSample;
   OpGetSamplingRate].

Example ready_raw_sample :
  returned (getRawSample false sim_fileno sim_read ready) = Some 0x12345.
Proof. vm_compute. reflexivity. Qed.

Example ready_reads_once :
  syscalls (final_state (getRawSample false sim_fileno sim_read ready)) = [SysRead 3 8].
Proof. vm_compute. reflexivity. Qed.

(** [sampling_rate_fixed] on the simulated device: the constructor returns,
    the rate is 1 kHz, and it stays so through calls that end in the end
    of the stream. *)
Lemma sampling_rate_fixed_witness :
  construct (boot one_scan) = Returns tt ready /\
  getSamplingRate ready = Returns (1000000000 # 1000000)%Q ready /\
  this (final_state
          (run_ops 0 false sim_buffer_contents sim_fileno sim_to_phys sim_read
                   some_calls ready)) = this ready.
Proof.
  assert (H : ComediHandler_ctor "/dev/comedi0" 0 0 2 1000000 1000000000%Q Qdiv inject_Z
                sim_open sim_oor sim_maxdata sim_get_range sim_n_channels
                sim_cmd_generic_timed sim_command_test sim_command sim_subdevice_flags
                (boot one_scan) = Returns tt ready)
    by (vm_compute; reflexivity).
  pose proof (sampling_rate_fixed double Dev "/dev/comedi0" 0 0 2 1000000 false
                1000000000%Q Qdiv inject_Z
                sim_open sim_oor sim_maxdata sim_get_range sim_n_channels
                sim_cmd_generic_timed sim_command_test sim_command sim_subdevice_flags
                sim_buffer_contents sim_fileno sim_to_phys sim_read
                (boot one_scan) ready some_calls H) as T.
  cbv zeta in T. destruct T as (T1 & T2 & _).
  vm_compute in T1. vm_compute in T2. vm_compute.
  split; [reflexivity|]. split; [exact T1|exact T2].
Defined.

(** [one_read_per_sample] on the simulated device with one scan waiting. *)
Lemma one_read_per_sample_witness :
  sim_read (sim_fileno (device ready)) (readSize (this ready)) (device ready)
    = (8, one_scan, {| fifo := [] |}) /\
  syscalls (final_state (getVoltageSample false sim_fileno sim_to_phys sim_read ready))
    = [SysRead 3 8] /\
  getRawSample false sim_fileno sim_read ready
    = Returns 0x12345 (after_read sim_fileno ready {| fifo := [] |}) /\
  getVoltageSample false sim_fileno sim_to_phys sim_read ready
    = Returns (sim_to_phys 0x12345 sim_range 0xffffff)
              (after_read sim_fileno ready {| fifo := [] |}).
Proof.
  assert (H : sim_read (sim_fileno (device ready)) (readSize (this ready)) (device ready)
              = (8, one_scan, {| fifo := [] |})) by (vm_compute; reflexivity).
  split; [exact H|].
  pose proof (one_read_per_sample double Dev false sim_fileno sim_to_phys sim_read
                ready 8 one_scan {| fifo := [] |} H) as T.
  cbv zeta in T. destruct T as (_ & T2 & T3).
  assert (T4 := T3 ltac:(discriminate)). destruct T4 as (T5 & T6).
  vm_compute in T2. vm_compute in T5. vm_compute in T6. vm_compute.
  split; [exact T2|]. split; [exact T5|exact T6].
Defined.

(** [end_of_stream_is_fatal] on the simulated device with nothing left. *)
Lemma end_of_stream_is_fatal_witness :
  sim_read (sim_fileno (device drained)) (readSize (this drained)) (device drained)
    = (0, repeat Byte.x00 8, {| fifo := [] |}) /\
  getVoltageSample false sim_fileno sim_to_phys sim_read drained
    = Exits (-1) (after_eof sim_fileno drained {| fifo := [] |}) /\
  (forall k : double -> Proc (State double Dev) unit,
     bind (getVoltageSample false sim_fileno sim_to_phys sim_read) k drained
     = Exits (-1) (after_eof sim_fileno drained {| fifo := [] |})).
Proof.
  assert (H : sim_read (sim_fileno (device drained)) (readSize (this drained)) (device drained)
              = (0, repeat Byte.x00 8, {| fifo := [] |})) by (vm_compute; reflexivity).
  split; [exact H|].
  pose proof (end_of_stream_is_fatal double Dev 0 false sim_buffer_contents sim_fileno
                sim_to_phys sim_read drained (repeat Byte.x00 8) {| fifo := [] |} H) as T.
  destruct T as (_ & T2 & _ & T4 & _).
  split; [exact T2|]. exact (T4 unit).
Defined.

Example drained_iteration_polls_again :
  acquisition_iteration 0 false sim_buffer_contents sim_fileno sim_to_phys sim_read drained
  = Returns None drained.
Proof. vm_compute. reflexivity. Qed.

End SimulatedDevice.

(** ** A simulated user interface *)

Module SimulatedWindow.

Import Window.
Local Open Scope string_scope.
Local Open Scope list_scope.
Local Open Scope Z_scope.

(** Values are integers, a plot is the list of the values it was given
    (the latest first), the engine the list of the commands it got. *)
Definition double : Type := Z.
Definition Plot : Type := list Z.
Definition Processing : Type := list string.

Definition sim_setNewData (v : double) (p : Plot) : Plot := v :: p.
Definition sim_start (p : Processing) : Processing := p ++ ["startMeasurement"].
Definition sim_stop (p : Processing) : Processing := p ++ ["stopMeasurement"].

(** [QString::number] on an integral value: its decimal digits. *)
Definition sim_number (d : double) (format : ascii) (precision : Z) : string :=
  DecimalString.NilZero.string_of_int (Z.to_int d).

Definition every_member (o : QObject) (m : string) : bool := true.

Definition start_screen : Gui double Processing Plot :=
  {| process := []; currentScreen := startScreen; plotPre := []; plotOsc := [];
     owner := None; posted := []; painted := [];
     label := fun o =>
       match o with
       | lheartRate => "Current heart rate:<br><b>--</b>"
       | lHRvalAV => "- beats/min"
       | _ => EmptyString
       end |}.

(** Two pairs are notified while two timer events are handled. *)
Definition two_pairs : list (double * double) := [(120, 1); (119, -1)].

(** An interleaving that leaves the second timer event between its two
    replots. *)
Definition interleaving : list Thread :=
  [ AcquisitionThread; AcquisitionThread; AcquisitionThread; AcquisitionThread;
    GuiThread; AcquisitionThread; GuiThread; GuiThread; GuiThread;
    AcquisitionThread; AcquisitionThread; AcquisitionThread; AcquisitionThread;
    GuiThread; AcquisitionThread; GuiThread ].

Definition reached : Config double Processing Plot :=
  match run sim_setNewData every_member false interleaving (initial two_pairs 2 start_screen) with
  | Some c => c
  | None => initial two_pairs 2 start_screen
  end.

Example blocked_while_held :
  run sim_setNewData every_member false [AcquisitionThread; GuiThread]
      (initial two_pairs 2 start_screen) = None.
Proof. vm_compute. reflexivity. Qed.

Example reached_painted :
  painted (shared reached) = [PaintedOsc [1]; PaintedPre [120]; PaintedOsc [-1; 1]].
Proof. vm_compute. reflexivity. Qed.

(** [plots_under_mutex] on that interleaving. *)
Lemma plots_under_mutex_witness :
  owner start_screen = None /\
  run sim_setNewData every_member false interleaving (initial two_pairs 2 start_screen)
    = Some reached /\
  torn_free sim_setNewData two_pairs start_screen (painted (shared reached)) /\
  (forall a rest, gui reached = a :: rest -> plot_access a = true ->
     owner (shared reached) = Some GuiThread).
Proof.
  assert (H0 : owner start_screen = None) by reflexivity.
  assert (H1 : run sim_setNewData every_member false interleaving
                 (initial two_pairs 2 start_screen) = Some reached)
    by (vm_compute; reflexivity).
  split; [exact H0|]. split; [exact H1|].
  pose proof (plots_under_mutex double Processing Plot sim_setNewData every_member false
                two_pairs 2 start_screen interleaving reached H0 H1) as T.
  destruct T as (_ & _ & _ & T4 & T5).
  split; [exact T5|exact T4].
Defined.

(** [heart_rate_overwrites_both] at 72 beats per minute. *)
Lemma heart_rate_overwrites_both_witness :
  every_member lheartRate "setText" = true /\
  every_member lHRvalAV "setText" = true /\
  (forall w', eHeartRate sim_number every_member false 72 start_screen = Returns tt w' ->
     label (deliver_all (posted w') w') lheartRate = "Current heart rate:<br><b>72</b>" /\
     label (deliver_all (posted w') w') lHRvalAV = "72 beats/min").
Proof.
  assert (H0 : every_member lheartRate "setText" = true) by reflexivity.
  assert (H1 : every_member lHRvalAV "setText" = true) by reflexivity.
  split; [exact H0|]. split; [exact H1|].
  pose proof (heart_rate_overwrites_both double Processing Plot sim_number every_member false
                72 start_screen H0 H1) as T.
  cbv zeta in T. destruct T as (_ & T2).
  intros w' Hw'. destruct (T2 w' Hw') as (Hposted & Hcur & Havg & _).
  rewrite Hposted. split; [exact Hcur|exact Havg].
Defined.

Example buttons_stop :
  Proc.returned (clkBtnReset sim_stop start_screen) = Some tt /\
  process (Proc.final_state (emit sim_start sim_stop btnReset "released()" start_screen))
    = ["stopMeasurement"] /\
  process (Proc.final_state (emit sim_start sim_stop btnCancel "released()" start_screen))
    = ["stopMeasurement"] /\
  process (Proc.final_state (emit sim_start sim_stop btnStart "released()" start_screen))
    = ["startMeasurement"].
Proof. vm_compute. repeat split. Qed.

End SimulatedWindow.

(** ** The engine on the scenario of section 8 *)

Module Scenario.

Import Engine.
Local Open Scope Q_scope.

Definition p160 : EnvelopePoint := {| cuffPressure := 160; oscillationAmplitude := 4 |}.
Definition p135 : EnvelopePoint := {| cuffPressure := 135; oscillationAmplitude := 7 |}.
Definition p110 : EnvelopePoint := {| cuffPressure := 110; oscillationAmplitude := 10 |}.
Definition p85 : EnvelopePoint := {| cuffPressure := 85; oscillationAmplitude := 7 |}.
Definition p60 : EnvelopePoint := {| cuffPressure := 60; oscillationAmplitude := 4 |}.
Definition p35 : EnvelopePoint := {| cuffPressure := 35; oscillationAmplitude := 1 |}.

Example scenario_envelope_points :
  scenario_envelope = [p160; p135] ++ p110 :: [p85; p60; p35].
Proof. reflexivity. Qed.

(** The same peak twice: the first occurrence is MAP. *)
Definition plateau : list EnvelopePoint :=
  [ p160; {| cuffPressure := 120; oscillationAmplitude := 10 |}; p110; p60 ].

Example plateau_takes_first :
  estimated_MAP plateau = Some 120 /\ argmax plateau <> None.
Proof. vm_compute. split; [reflexivity|discriminate]. Qed.

(** A deflation that ended too early: nothing at or below MAP decays to
    three quarters of the peak. *)
Definition cut_short : list EnvelopePoint := [p160; p135; p110].

Example cut_short_fails :
  estimate scenario_config cut_short = Failed RatioCrossingNotFound.
Proof. vm_compute. reflexivity. Qed.

(** [minNbrPeaks = 5]. *)
Definition strict_config : MeasurementConfig :=
  {| ratioSBP := 55 # 100; ratioDBP := 75 # 100; minNbrPeaks := 5; pumpUpTarget := 180 |}.

Lemma first_maximum_p110 : first_maximum [p160; p135] p110 [p85; p60; p35].
Proof.
  split; intros q Hq; cbn in Hq;
    repeat (destruct Hq as [<-|Hq]; [vm_compute; try reflexivity; discriminate|]);
    contradiction Hq.
Qed.

(** [MAP_is_first_maximum] on the scenario. *)
Lemma MAP_is_first_maximum_witness :
  (1 <= minNbrPeaks scenario_config)%nat /\
  (minNbrPeaks scenario_config <= List.length scenario_envelope)%nat /\
  exists before pm after,
    scenario_envelope = before ++ pm :: after /\
    first_maximum before pm after /\
    estimated_MAP scenario_envelope = Some (cuffPressure pm).
Proof.
  assert (H1 : (1 <= minNbrPeaks scenario_config)%nat) by (cbn; lia).
  assert (H2 : (minNbrPeaks scenario_config <= List.length scenario_envelope)%nat)
    by (cbn; lia).
  split; [exact H1|]. split; [exact H2|].
  destruct (MAP_is_first_maximum scenario_config scenario_envelope H1 H2)
    as (before & pm & after & Heq & Hmax & _ & Hmap & _).
  exists before, pm, after. split; [exact Heq|]. split; [exact Hmax|exact Hmap].
Defined.

(** [SBP_DBP_first_crossings] on the scenario: 110 / 160 / 85 mmHg. *)
Lemma SBP_DBP_first_crossings_witness :
  first_maximum [p160; p135] p110 [p85; p60; p35] /\
  [p160; p135] ++ [p110] = [] ++ p160 :: [p135; p110] /\
  p110 :: [p85; p60; p35] = [p110] ++ p85 :: [p60; p35] /\
  estimate scenario_config scenario_envelope
    = Estimated {| map := 110; sbp := 160; dbp := 85 |}.
Proof.
  assert (Hmax := first_maximum_p110).
  split; [exact Hmax|]. split; [reflexivity|]. split; [reflexivity|].
  refine (proj1 (SBP_DBP_first_crossings scenario_config
                   [p160; p135] p110 [p85; p60; p35]
                   [] p160 [p135; p110] [p110] p85 [p60; p35]
                   _ Hmax eq_refl _ _ eq_refl _ _)).
  - cbn. lia.
  - vm_compute. discriminate.
  - intros q Hq. cbn in Hq.
    repeat (destruct Hq as [<-|Hq]; [vm_compute; reflexivity|]). contradiction Hq.
  - vm_compute. discriminate.
  - intros q Hq. cbn in Hq.
    repeat (destruct Hq as [<-|Hq]; [vm_compute; reflexivity|]). contradiction Hq.
Defined.

(** [estimation_failures] with [minNbrPeaks = 5] on three points. *)
Lemma estimation_failures_witness :
  (1 <= minNbrPeaks strict_config)%nat /\
  estimate strict_config cut_short = Failed InsufficientData.
Proof.
  assert (H1 : (1 <= minNbrPeaks strict_config)%nat) by (cbn; lia).
  split; [exact H1|].
  exact (proj1 (proj2 (estimation_failures strict_config cut_short H1)) eq_refl eq_refl).
Defined.

(** A detector that confirms a peak at every positive high-pass value. *)
Definition sim_detect (d : nat) (highPass lowPass : Q) : nat * option EnvelopePoint :=
  if Qltb 0 highPass
  then (S d, Some {| cuffPressure := lowPass; oscillationAmplitude := highPass |})
  else (d, None).

Definition idle : Machine nat :=
  {| phase := Idle; envelope := []; detector := 0%nat; result := None |}.

(** The cuff is pumped to 181 mmHg, kept there, and let down. *)
Definition pumping : list (Q * Q) := [(50, 1); (120, -1); (179, 2)].
Definition deflating : list (Q * Q) := [(185, 1); (181, -1); (150, 3); (100, 5); (180, 1)].

Example scenario_phases :
  phase_changes
    (snd (run 0%nat sim_detect 20 2 scenario_config idle
              (StartMeasurement :: samples (pumping ++ (181, 0) :: deflating
                                               ++ [(15, 0); (1, 0)]))))
  = [WaitInflate; Deflating; WaitEmptyCuff; Result].
Proof. vm_compute. reflexivity. Qed.

(** [inflation_driven_by_trend] on that run. *)
Lemma inflation_driven_by_trend_witness :
  phase idle = Idle /\
  phase (fst (run 0%nat sim_detect 20 2 scenario_config idle
                  (StartMeasurement :: samples pumping))) = WaitInflate /\
  phase (fst (run 0%nat sim_detect 20 2 scenario_config idle
                  (StartMeasurement :: samples (pumping ++ [(181, 0)])))) = Deflating /\
  entries_to_Deflating
    (snd (run 0%nat sim_detect 20 2 scenario_config idle
              (StartMeasurement :: samples (pumping ++ (181, 0) :: deflating)))) = 1%nat.
Proof.
  assert (H0 : phase idle = Idle) by reflexivity.
  assert (Hlow : forall s, In s pumping -> fst s < pumpUpTarget scenario_config).
  { intros s Hs. cbn in Hs.
    repeat (destruct Hs as [<-|Hs]; [vm_compute; reflexivity|]). contradiction Hs. }
  assert (Hreach : pumpUpTarget scenario_config <= 181) by (vm_compute; discriminate).
  split; [exact H0|].
  pose proof (inflation_driven_by_trend nat 0%nat sim_detect 20 2 scenario_config idle H0)
    as (_ & T2 & T3 & _).
  split; [exact (proj1 (T2 pumping Hlow))|].
  exact (T3 pumping 181 0 deflating Hlow Hreach).
Defined.

End Scenario.

(** ** More runs of the simulated device *)

Module DeviceCases.

Import ComediHandler SimulatedDevice.
Local Open Scope Z_scope.


(** A scan whose first cell is 0x80000000. *)
Definition high_scan : list Byte.byte :=
  [Byte.x00; Byte.x00; Byte.x00; Byte.x80; Byte.x07; Byte.x00; Byte.x00; Byte.x00].

(** The scan [one_scan] with another value on the second channel. *)
Definition other_channel : list Byte.byte :=
  [Byte.x45; Byte.x23; Byte.x01; Byte.x00; Byte.xff; Byte.xff; Byte.x00; Byte.x00].

Definition ready_high : State double Dev := final_state (construct (boot high_scan)).



(** [only_first_channel] on the handler constructed for two channels. *)
Lemma only_first_channel_witness :
  construct (boot one_scan) = Returns tt ready /\
  readSize (this ready) = 8 /\
  sample_of false (this ready) one_scan = sample_of false (this ready) other_channel.
Proof.
  assert (H : ComediHandler_ctor "/dev/comedi0" 0 0 2 1000000 1000000000%Q Qdiv inject_Z
                sim_open sim_oor sim_maxdata sim_get_range sim_n_channels
                sim_cmd_generic_timed sim_command_test sim_command sim_subdevice_flags
                (boot one_scan) = Returns tt ready)
    by (vm_compute; reflexivity).
  pose proof (only_first_channel Q Dev "/dev/comedi0" 0 0 2 1000000 false
                1000000000%Q Qdiv inject_Z
                sim_open sim_oor sim_maxdata sim_get_range sim_n_channels
                sim_cmd_generic_timed sim_command_test sim_command sim_subdevice_flags
                (boot one_scan) ready H) as (_ & T2 & T3).
  split; [vm_compute; reflexivity|].
  split; [vm_compute in T2; vm_compute; exact T2|].
  apply T3. vm_compute. reflexivity.
Defined.

(** [sample_values] on a cell with the top bit set: the raw sample is
    negative, the voltage is that of the cell. *)
Lemma sample_values_witness :
  sim_read (sim_fileno (device ready_high)) (readSize (this ready_high)) (device ready_high)
    = (8, high_scan, {| fifo := [] |}) /\
  returned (getRawSample false sim_fileno sim_read ready_high) = Some (-2147483648) /\
  returned (getVoltageSample false sim_fileno sim_to_phys sim_read ready_high)
    = Some (sim_to_phys 2147483648 sim_range 0xffffff).
Proof.
  assert (H : sim_read (sim_fileno (device ready_high)) (readSize (this ready_high))
                (device ready_high) = (8, high_scan, {| fifo := [] |}))
    by (vm_compute; reflexivity).
  split; [exact H|].
  pose proof (sample_values double Dev false sim_fileno sim_to_phys sim_read
                ready_high 8 high_scan {| fifo := [] |} H ltac:(discriminate)) as T.
  cbv zeta in T. destruct T as (_ & Hvolt & v & Hraw & _ & _ & Hlarge & _).
  rewrite Hraw, Hvolt. cbn [returned].
  rewrite Hlarge by (vm_compute; discriminate).
  split; vm_compute; reflexivity.
Defined.

Example quiet_on_success :
  syscalls ready = [] /\ exit_status (construct (boot one_scan)) = None.
Proof. vm_compute. split; reflexivity. Qed.

End DeviceCases.

(** ** More runs of the simulated window *)

Module WindowCases.

Import Window SimulatedWindow.
Local Open Scope string_scope.
Local Open Scope list_scope.
Local Open Scope Z_scope.

(** A measurement from the first screen to the result, then a second one
    started. *)
Definition one_measurement : list Screen :=
  [inflateScreen; deflateScreen; emptyCuffScreen; resultScreen; startScreen; inflateScreen].

(** A window whose Cancel button has no member to invoke. *)
Definition no_cancel_member (o : QObject) (m : string) : bool :=
  match o with
  | btnCancel => false
  | _ => true
  end.

(** [screens_stay_in_sync] over a measurement and the start of the next:
    Cancel is shown and the second page is up. *)
Lemma screens_stay_in_sync_witness :
  screen_members_found every_member /\
  in_sync shown_after_setup start_screen /\
  exists w',
    switch_screens every_member false one_measurement start_screen = Returns tt w' /\
    currentScreen w' = inflateScreen /\
    cancel_visible (deliver_shown_all (posted w') shown_after_setup) = true /\
    current_page (deliver_shown_all (posted w') shown_after_setup) = 1.
Proof.
  assert (H0 : screen_members_found every_member) by (repeat split).
  assert (H1 : in_sync shown_after_setup start_screen)
    by (repeat split; vm_compute; discriminate).
  split; [exact H0|]. split; [exact H1|].
  destruct (screens_stay_in_sync double Processing Plot every_member false
              one_measurement start_screen shown_after_setup H0 H1)
    as (w' & new & Hrun & Hposted & Hcur & (Hcancel & Hpage & Hpos) & _).
  exists w'. split; [exact Hrun|].
  change (posted start_screen ++ new) with new in Hposted. rewrite Hposted.
  rewrite Hcur in Hcancel, Hpage.
  split; [exact Hcur|]. split; [exact Hcancel|].
  destruct (deliver_shown_all new shown_after_setup) as [cv se [|[p|p|]|p]];
    cbn in Hpage, Hpos |- *; try reflexivity; try discriminate Hpage; try lia.
  - destruct (Pos.to_nat p~1) as [|[|[|[|[|[|k]]]]]] eqn:E; try discriminate Hpage; lia.
  - destruct (Pos.to_nat p~0) as [|[|[|[|[|[|k]]]]]] eqn:E; try discriminate Hpage; lia.
Defined.

(** [results_displayed] for 93, 120 and 80 mmHg. *)
Lemma results_displayed_witness :
  every_member lMAPval "setText" = true /\
  every_member lSBPval "setText" = true /\
  every_member lDBPval "setText" = true /\
  exists w' new,
    eResults sim_number every_member false 93 120 80 start_screen = Returns tt w' /\
    label (deliver_all new w') lMAPval = "93 mmHg" /\
    label (deliver_all new w') lSBPval = "120 mmHg" /\
    label (deliver_all new w') lDBPval = "80 mmHg" /\
    label (deliver_all new w') lHRvalAV = "- beats/min".
Proof.
  assert (H0 : every_member lMAPval "setText" = true) by reflexivity.
  assert (H1 : every_member lSBPval "setText" = true) by reflexivity.
  assert (H2 : every_member lDBPval "setText" = true) by reflexivity.
  split; [exact H0|]. split; [exact H1|]. split; [exact H2|].
  destruct (results_displayed double Processing Plot sim_number every_member false
              93 120 80 start_screen shown_after_setup H0 H1 H2)
    as (w' & new & Hrun & _ & _ & Hmap & Hsbp & Hdbp & Hothers & _).
  exists w', new. split; [exact Hrun|].
  split; [exact Hmap|]. split; [exact Hsbp|]. split; [exact Hdbp|].
  rewrite Hothers by discriminate. reflexivity.
Defined.

(** [ready_enables_start] on the window as [setupUi] leaves it. *)
Lemma ready_enables_start_witness :
  every_member btnStart "setDisabled" = true /\
  exists w' i,
    eReady every_member false start_screen = Returns tt w' /\
    posted w' = [i] /\
    start_enabled (deliver_shown i shown_after_setup) = true.
Proof.
  assert (H0 : every_member btnStart "setDisabled" = true) by reflexivity.
  split; [exact H0|].
  destruct (ready_enables_start double Processing Plot every_member false
              start_screen shown_after_setup H0)
    as (_ & w' & i & Hrun & Hposted & Hstart & _).
  exists w', i. split; [exact Hrun|]. split; [exact Hposted|exact Hstart].
Defined.

(** [switch_screen_member_missing]: with assertions the switch to the
    inflate screen aborts. *)
Lemma switch_screen_member_missing_witness :
  no_cancel_member btnCancel "show" = false /\
  eSwitchScreen no_cancel_member false inflateScreen start_screen = Aborts start_screen.
Proof.
  assert (H0 : no_cancel_member btnCancel "show" = false) by reflexivity.
  split; [exact H0|].
  exact (proj1 (switch_screen_member_missing double Processing Plot no_cancel_member false
                  inflateScreen start_screen H0) eq_refl).
Defined.

Example release_build_goes_on :
  Proc.returned (eSwitchScreen no_cancel_member true inflateScreen start_screen) = Some tt /\
  List.map receiver
    (posted (Proc.final_state (eSwitchScreen no_cancel_member true inflateScreen start_screen)))
    = [lInstructions].
Proof. vm_compute. split; reflexivity. Qed.

(** [meter_follows_pressure] on the interleaving of [plots_under_mutex]: the
    meter was given 120, then 119. *)
Lemma meter_follows_pressure_witness :
  every_member meter "setValue" = true /\
  run sim_setNewData every_member false interleaving (initial two_pairs 2 start_screen)
    = Some reached /\
  posted (shared reached) = [meter_invocation 120; meter_invocation 119].
Proof.
  assert (H0 : every_member meter "setValue" = true) by reflexivity.
  assert (H1 : run sim_setNewData every_member false interleaving
                 (initial two_pairs 2 start_screen) = Some reached)
    by (vm_compute; reflexivity).
  split; [exact H0|]. split; [exact H1|].
  destruct (meter_follows_pressure double Processing Plot sim_setNewData every_member false
              two_pairs 2 start_screen interleaving reached H0 H1)
    as (j & Hposted & Hall).
  rewrite Hposted, Hall by (vm_compute; reflexivity). reflexivity.
Defined.

(** [no_pair_lost] on that interleaving. *)
Lemma no_pair_lost_witness :
  owner start_screen = None /\
  run sim_setNewData every_member false interleaving (initial two_pairs 2 start_screen)
    = Some reached /\
  acq reached = [] /\
  plotPre (shared reached) = [119; 120] /\
  plotOsc (shared reached) = [-1; 1].
Proof.
  assert (H0 : owner start_screen = None) by reflexivity.
  assert (H1 : run sim_setNewData every_member false interleaving
                 (initial two_pairs 2 start_screen) = Some reached)
    by (vm_compute; reflexivity).
  assert (H2 : acq reached = []) by (vm_compute; reflexivity).
  split; [exact H0|]. split; [exact H1|]. split; [exact H2|].
  exact (no_pair_lost double Processing Plot sim_setNewData every_member false
           two_pairs 2 start_screen interleaving reached H0 H1 H2).
Defined.

(** [no_deadlock] on that interleaving: the timer event that is left
    between its two replots can go on. *)
Lemma no_deadlock_witness :
  (every_member meter "setValue" = true \/ false = true) /\
  owner start_screen = None /\
  run sim_setNewData every_member false interleaving (initial two_pairs 2 start_screen)
    = Some reached /\
  ((acq reached = [] /\ gui reached = []) \/
   exists t c', step sim_setNewData every_member false t reached = Some c').
Proof.
  assert (H0 : every_member meter "setValue" = true \/ false = true) by (left; reflexivity).
  assert (H1 : owner start_screen = None) by reflexivity.
  assert (H2 : run sim_setNewData every_member false interleaving
                 (initial two_pairs 2 start_screen) = Some reached)
    by (vm_compute; reflexivity).
  split; [exact H0|]. split; [exact H1|]. split; [exact H2|].
  exact (no_deadlock double Processing Plot sim_setNewData every_member false
           two_pairs 2 start_screen interleaving reached H0 H1 H2).
Defined.

End WindowCases.

(** ** The settings on a simulated engine and dialog *)

Module SettingsCases.

Import WindowSettings.
Local Open Scope string_scope.
Local Open Scope list_scope.
Local Open Scope Z_scope.

(** The engine and the dialog each hold the four values; ratios are in
    percent, and a [QVariant] is the number itself. *)
Record Values : Type := {
  ratioSBP : Z;
  ratioDBP : Z;
  minNbrPeaks : Z;
  pumpUpValue : Z
}.

Definition sim_setRatioSBP (v : Z) (p : Values) : Values :=
  {| ratioSBP := v; ratioDBP := ratioDBP p; minNbrPeaks := minNbrPeaks p;
     pumpUpValue := pumpUpValue p |}.
Definition sim_setRatioDBP (v : Z) (p : Values) : Values :=
  {| ratioSBP := ratioSBP p; ratioDBP := v; minNbrPeaks := minNbrPeaks p;
     pumpUpValue := pumpUpValue p |}.
Definition sim_setMinNbrPeaks (v : Z) (p : Values) : Values :=
  {| ratioSBP := ratioSBP p; ratioDBP := ratioDBP p; minNbrPeaks := v;
     pumpUpValue := pumpUpValue p |}.
Definition sim_setPumpUpValue (v : Z) (p : Values) : Values :=
  {| ratioSBP := ratioSBP p; ratioDBP := ratioDBP p; minNbrPeaks := minNbrPeaks p;
     pumpUpValue := v |}.

Definition defaults : Values :=
  {| ratioSBP := 57; ratioDBP := 75; minNbrPeaks := 10; pumpUpValue := 180 |}.
Definition sim_reset (p : Values) : Values := defaults.

Definition as_is (x : Z) : Z := x.

(** [QString::arg] on a number: its digits after the text. *)
Definition sim_arg (s : string) (v : Z) : string :=
  s ++ " / " ++ DecimalString.NilZero.string_of_int (Z.to_int v).

Definition load : Win Values Values Z -> Win Values Values Z :=
  loadSettings Z Values ratioSBP ratioDBP minNbrPeaks pumpUpValue
    sim_setRatioSBP sim_setRatioDBP sim_setMinNbrPeaks sim_setPumpUpValue
    Values sim_setRatioSBP sim_setRatioDBP sim_setMinNbrPeaks sim_setPumpUpValue
    Z as_is as_is as_is as_is.

Definition update : Win Values Values Z -> Win Values Values Z :=
  updateValues Z Values Values ratioSBP ratioDBP minNbrPeaks pumpUpValue Z as_is as_is.

Definition retranslate : Win Values Values Z -> Win Values Values Z :=
  retranslateUi Z Values ratioSBP ratioDBP Values Z sim_arg sim_arg.

Definition reset : Win Values Values Z -> Win Values Values Z :=
  resetValuesPerform Z Values ratioSBP ratioDBP minNbrPeaks pumpUpValue
    sim_setRatioSBP sim_setRatioDBP sim_setMinNbrPeaks sim_setPumpUpValue sim_reset
    Values sim_setRatioSBP sim_setRatioDBP sim_setMinNbrPeaks sim_setPumpUpValue
    Z as_is as_is as_is as_is sim_arg sim_arg.

Definition chosen : Values :=
  {| ratioSBP := 50; ratioDBP := 80; minNbrPeaks := 12; pumpUpValue := 200 |}.

(** A window with the defaults in the engine, [chosen] typed into the
    dialog, an older value in the settings and a result on display. *)
Definition edited : Win Values Values Z :=
  {| process := defaults; settingsDialog := chosen;
     settings := fun key => if String.eqb key "ratioSBP" then Some 60 else None;
     pumpUpVal := 180;
     text := fun o => match o with
                      | lMAPval => "93 mmHg"
                      | _ => EmptyString
                      end |}.

(** The same engine and pump-up value behind a window with no text yet. *)
Definition blank : Win Values Values Z :=
  {| process := defaults; settingsDialog := defaults; settings := fun _ => None;
     pumpUpVal := 180; text := fun _ => EmptyString |}.

(** [settings_round_trip]: what was typed into the dialog reaches the
    engine. *)
Lemma settings_round_trip_witness :
  variant_round_trip Z Z as_is as_is as_is as_is /\
  process (load (update edited)) = chosen /\
  pumpUpVal (load (update edited)) = 200.
Proof.
  assert (H0 : variant_round_trip Z Z as_is as_is as_is as_is) by (split; reflexivity).
  split; [exact H0|].
  pose proof (settings_round_trip Z Values ratioSBP ratioDBP minNbrPeaks pumpUpValue
                sim_setRatioSBP sim_setRatioDBP sim_setMinNbrPeaks sim_setPumpUpValue
                Values ratioSBP ratioDBP minNbrPeaks pumpUpValue
                sim_setRatioSBP sim_setRatioDBP sim_setMinNbrPeaks sim_setPumpUpValue
                Z as_is as_is as_is as_is edited H0) as T.
  cbv zeta in T. unfold load, update. rewrite T.
  split; vm_compute; reflexivity.
Defined.

(** [retranslate_overwrites]: the result on display gives way to the
    placeholder, and the texts are those of a window that had none. *)
Lemma retranslate_overwrites_witness :
  pumpUpVal edited = pumpUpVal blank /\
  ratioSBP (process edited) = ratioSBP (process blank) /\
  ratioDBP (process edited) = ratioDBP (process blank) /\
  text edited lMAPval = "93 mmHg" /\
  text (retranslate edited) lMAPval = "- mmHg" /\
  (forall o, text (retranslate edited) o = text (retranslate blank) o).
Proof.
  assert (H0 : pumpUpVal edited = pumpUpVal blank) by reflexivity.
  assert (H1 : ratioSBP (process edited) = ratioSBP (process blank)) by reflexivity.
  assert (H2 : ratioDBP (process edited) = ratioDBP (process blank)) by reflexivity.
  split; [exact H0|]. split; [exact H1|]. split; [exact H2|].
  split; [reflexivity|].
  destruct (retranslate_overwrites Z Values ratioSBP ratioDBP Values Z sim_arg sim_arg
              edited blank H0 H1 H2) as (Hsame & _ & Hmap & _).
  split; [exact Hmap|exact Hsame].
Defined.

(** [reset_values]: the defaults of the engine end up in the engine, the
    dialog and the settings, and 180 mmHg in the instructions. *)
Lemma reset_values_witness :
  variant_round_trip Z Z as_is as_is as_is as_is /\
  process (reset edited) = defaults /\
  settingsDialog (reset edited) = defaults /\
  pumpUpVal (reset edited) = 180 /\
  settings (reset edited) "ratioSBP" = Some 57 /\
  text (reset edited) lMAPval = "- mmHg".
Proof.
  assert (H0 : variant_round_trip Z Z as_is as_is as_is as_is) by (split; reflexivity).
  split; [exact H0|].
  pose proof (reset_values Z Values ratioSBP ratioDBP minNbrPeaks pumpUpValue
                sim_setRatioSBP sim_setRatioDBP sim_setMinNbrPeaks sim_setPumpUpValue sim_reset
                Values sim_setRatioSBP sim_setRatioDBP sim_setMinNbrPeaks sim_setPumpUpValue
                Z as_is as_is as_is as_is sim_arg sim_arg edited H0) as T.
  cbv zeta in T.
  destruct T as (Hp & Hdlg & Hpump & Hsbp & _ & _ & _ & _ & _ & Hmap & _).
  unfold reset.
  split; [rewrite Hp; vm_compute; reflexivity|].
  split; [rewrite Hdlg; vm_compute; reflexivity|].
  split; [rewrite Hpump; vm_compute; reflexivity|].
  split; [rewrite Hsbp; vm_compute; reflexivity|exact Hmap].
Defined.

Example saved_then_loaded :
  settings (update edited) "ratioSBP" = Some 50 /\
  settings (update edited) "language" = None /\
  ratioSBP (process (load edited)) = 60 /\
  ratioDBP (process (load edited)) = 75.
Proof. vm_compute. repeat split. Qed.

End SettingsCases.
